(** * uTimerLib: duration planning and the expiry-driven timer state machine

    A shallow embedding of [src/uTimerLib.cpp] (version 1.1.1).  The source is
    one C++ class whose member functions are specialised per target by the
    preprocessor.  Three targets are embedded here, the ones whose code is
    integer arithmetic (with the exactly representable constant 0.5):

    - [ARDUINO_ARCH_AVR]        Timer2, 8-bit counter, overflow interrupt;
    - [_VARIANT_ARDUINO_STM32_] Timer3 of the STM32 core library;
    - [ARDUINO_ARCH_ESP]        ESP8266 / ESP32, the software [Ticker].

    The attach functions of SAM, SAMD21 and SAMD51 divide by decimal
    constants that no binary floating-point number represents; they are not
    embedded.  The expiry side of these targets, which is integer code, is
    in the module [SamFamily].

    A member function is a command: it transforms the object [uTimerLib] and
    emits the register writes, library calls and callback invocations it
    performs, in program order. *)

From Stdlib Require Import ZArith QArith Qround List Bool Lia.
Import ListNotations.
Open Scope Z_scope.

(** ** Machine arithmetic *)

(** [unsigned long int] is 32 bits wide on the three targets; unsigned
    arithmetic wraps. *)
Definition ULONG_BITS : Z := 32.

Definition ulong (z : Z) : Z := z mod 2 ^ ULONG_BITS.

(** Conversion of a floating-point value to an integer type discards the
    fractional part (truncation toward zero). *)
Definition trunc (x : Q) : Z := Z.quot (Qnum x) (Zpos (Qden x)).

(** [floor] of <math.h>, returning a floating-point value. *)
Definition floor (x : Q) : Q := inject_Z (Qfloor x).

(** The literal [0.5].  Every floating-point value below is an integer
    smaller than 2^18, such an integer plus one half, or such an integer
    times 16384 (AVR, where [double] has a 24-bit significand), or an integer
    smaller than 2^32 plus one half (ESP, 53-bit significand): the
    operations are exact in binary floating point and are computed in
    [Q]. *)
Definition half : Q := 1 # 2.

(** ** Data model *)

Inductive Arch : Set :=
| ARDUINO_ARCH_AVR
| _VARIANT_ARDUINO_STM32_
| ARDUINO_ARCH_ESP.

(** Modelled from the spec: the constants [UTIMERLIB_TYPE_OFF],
    [UTIMERLIB_TYPE_TIMEOUT] and [UTIMERLIB_TYPE_INTERVAL], the values of
    [_type], are defined in uTimerLib.h, which is not among the sources; they
    are the three modes of TimerMode. *)
Inductive TimerType : Set :=
| UTIMERLIB_TYPE_OFF
| UTIMERLIB_TYPE_TIMEOUT
| UTIMERLIB_TYPE_INTERVAL.

Definition TimerType_eqb (x y : TimerType) : bool :=
  match x, y with
  | UTIMERLIB_TYPE_OFF, UTIMERLIB_TYPE_OFF
  | UTIMERLIB_TYPE_TIMEOUT, UTIMERLIB_TYPE_TIMEOUT
  | UTIMERLIB_TYPE_INTERVAL, UTIMERLIB_TYPE_INTERVAL => true
  | _, _ => false
  end.

(** A user function (pointer to a function of no argument returning
    nothing), identified by its address.  The stored
    pointer [_cb] is [None] when it is [NULL]. *)
Definition Callback : Set := nat.

(** The data members the source reads and writes.  The counters hold
    [unsigned long int] values; [_remaining] and [__remaining] are what is
    loaded in the 8-bit TCNT2 on AVR, where every value assigned to them is
    within 0..255 (lemmas [avr_plan_us_bounds] and [avr_remaining_s_bounds]),
    so that the width they are declared with in uTimerLib.h does not
    matter. *)
Record uTimerLib : Set := mkTimer {
  _overflows : Z;
  __overflows : Z;
  _remaining : Z;
  __remaining : Z;
  _cb : option Callback;
  _type : TimerType;
  _toInit : bool
}.

(** Modelled from the spec: uTimerLib.h, which declares the members and their
    initial values, is not among the sources.  [TimerLib] is the one object,
    of static storage duration; it starts in mode Off with no callback and
    zeroed counters (spec, TimerState and TimerMode). *)
Definition TimerLib : uTimerLib :=
  mkTimer 0 0 0 0 None UTIMERLIB_TYPE_OFF true.

(** Argument of [Timer3.setCompare]. *)
Inductive CompareValue : Set :=
| timerOverflow            (* the value returned by [Timer3.setPeriod] *)
| compare_literal (v : Z).

(** What a member function does to the world outside the object. *)
Inductive Event : Set :=
(* AVR *)
| cli
| sei
| ASSR_clear_AS2
| TCCR2A_write_COM2A1
| TCCR2B_write_CS (CSMask : Z)
| TCNT2_write (v : Z)
| TIMSK2_set_TOIE2
| TIMSK2_clear_TOIE2
| TIMSK2_clear_OCIE2A
| SREG_clear_I
(* STM32 *)
| Timer3_setMode
| Timer3_setPeriod (us : Z)
| Timer3_setCompare (v : CompareValue)
| Timer3_attachInterrupt
| Timer3_refresh
| Timer3_resume
| Timer3_pause
(* ESP8266, ESP32 *)
| ticker_attach_ms (ms : Z)
| ticker_attach (s : Z)
| ticker_detach
(* [_cb()]: the function called, and the value of [_type] when it is
   entered *)
| call (f : option Callback) (seen : TimerType).

Definition is_call (e : Event) : bool :=
  match e with call _ _ => true | _ => false end.

(** ** Commands *)

Definition Cmd : Type := uTimerLib -> uTimerLib * list Event.

Definition skip : Cmd := fun t => (t, []).

Definition seq (c1 c2 : Cmd) : Cmd :=
  fun t => (fst (c2 (fst (c1 t))), snd (c1 t) ++ snd (c2 (fst (c1 t)))).

Definition cond (b : uTimerLib -> bool) (c1 c2 : Cmd) : Cmd :=
  fun t => if b t then c1 t else c2 t.

Definition emit (e : Event) : Cmd := fun t => (t, [e]).

Declare Scope cmd_scope.
Delimit Scope cmd_scope with cmd.
Bind Scope cmd_scope with Cmd.
Notation "c1 ;; c2" := (seq c1 c2)
  (at level 61, right associativity) : cmd_scope.
Notation "'If' b 'Then' c1 'Else' c2" := (cond b c1 c2)
  (at level 62, b at level 10, c1 at level 61, right associativity) : cmd_scope.

(** Assignments to the data members.  The right-hand side may read the
    object. *)
Definition store_overflows (f : uTimerLib -> Z) : Cmd := fun t =>
  (mkTimer (f t) (__overflows t) (_remaining t) (__remaining t)
           (_cb t) (_type t) (_toInit t), []).

Definition store__overflows (f : uTimerLib -> Z) : Cmd := fun t =>
  (mkTimer (_overflows t) (f t) (_remaining t) (__remaining t)
           (_cb t) (_type t) (_toInit t), []).

Definition store_remaining (f : uTimerLib -> Z) : Cmd := fun t =>
  (mkTimer (_overflows t) (__overflows t) (f t) (__remaining t)
           (_cb t) (_type t) (_toInit t), []).

Definition store__remaining (f : uTimerLib -> Z) : Cmd := fun t =>
  (mkTimer (_overflows t) (__overflows t) (_remaining t) (f t)
           (_cb t) (_type t) (_toInit t), []).

Definition store_cb (cb : Callback) : Cmd := fun t =>
  (mkTimer (_overflows t) (__overflows t) (_remaining t) (__remaining t)
           (Some cb) (_type t) (_toInit t), []).

Definition store_type (ty : TimerType) : Cmd := fun t =>
  (mkTimer (_overflows t) (__overflows t) (_remaining t) (__remaining t)
           (_cb t) ty (_toInit t), []).

Definition store_toInit (b : bool) : Cmd := fun t =>
  (mkTimer (_overflows t) (__overflows t) (_remaining t) (__remaining t)
           (_cb t) (_type t) b, []).

(** [_cb();]  The user function is taken not to call back into the object
    (spec, section 5): the invocation is recorded and the object is left as
    it is. *)
Definition call_cb : Cmd := fun t => (t, [call (_cb t) (_type t)]).

(** [__overflows = _overflows = __remaining = _remaining = 0;] *)
Definition zero_counters : Cmd :=
  (store_remaining (fun _ => 0) ;;
   store__remaining _remaining ;;
   store_overflows __remaining ;;
   store__overflows _overflows)%cmd.

Definition is_type (ty : TimerType) (t : uTimerLib) : bool :=
  TimerType_eqb (_type t) ty.

Definition emit_of (f : uTimerLib -> Event) : Cmd := fun t => (t, [f t]).

(** ** AVR: build constants and the plan of a duration *)

(** The clock frequency the build is made for.  The notes in the source
    assume 16 MHz; the test on [F_CPU] is kept as the source has it. *)
Definition F_CPU : Z := 16000000.

(** Bit positions of the clock-select bits in TCCR2B (avr/io.h). *)
Definition CS20 : Z := 0.
Definition CS21 : Z := 1.
Definition CS22 : Z := 2.

Definition bit (n : Z) : Z := Z.shiftl 1 n.

(** What [_attachInterrupt_us] computes on AVR before it touches the timer:
    the prescaler mask and the values assigned to [_overflows] and
    [_remaining]. *)
Record AvrPlan : Set := mkPlan {
  CSMask : Z;
  plan_overflows : Z;
  plan_remaining : Z
}.

Definition avr_plan_us (us : Z) : AvrPlan :=
  if 16384 <=? us then
    mkPlan (Z.lor (Z.lor (bit CS22) (bit CS21)) (bit CS20))
           (us / 16384)
           (trunc (256 - (inject_Z ((us mod 16384) / 64) + half)))
  else if 4096 <=? us then
    mkPlan (Z.lor (Z.lor (bit CS22) (bit CS21)) (bit CS20)) 0
           (trunc (256 - (inject_Z (us / 64) + half)))
  else if 2048 <=? us then
    mkPlan (Z.lor (bit CS22) (bit CS21)) 0
           (trunc (256 - (inject_Z (us / 16) + half)))
  else if 1024 <=? us then
    mkPlan (Z.lor (bit CS22) (bit CS20)) 0
           (trunc (256 - (inject_Z (us / 8) + half)))
  else if 512 <=? us then
    mkPlan (bit CS22) 0
           (trunc (256 - (inject_Z (us / 4) + half)))
  else if 128 <=? us then
    mkPlan (Z.lor (bit CS21) (bit CS20)) 0
           (trunc (256 - (inject_Z (us / 2) + half)))
  else if 16 <=? us then
    mkPlan (bit CS21) 0 (ulong (256 - ulong (us * 2)))
  else
    mkPlan (bit CS20) 0 (ulong (256 - ulong (us * 16))).

(** The two assignments of [_attachInterrupt_s] on AVR.  The first one reads
    the value [_overflows] has when the function is entered. *)
Definition avr_overflows_s (old_overflows s : Z) : Z :=
  if 500000 <? old_overflows
  then ulong (s / 16384 * 1000000)
  else ulong (s * 1000000) / 16384.

Definition avr_remaining_s (s : Z) : Z :=
  if 16384 <? s then
    let temp := trunc (floor (inject_Z (s / 16384)) * 16384) in
    trunc (256 - (inject_Z ((ulong (ulong (s - temp) * 1000000) mod 16384) / 64)
                  + half))
  else
    trunc (256 - (inject_Z ((ulong (s * 1000000) mod 16384) / 64) + half)).

(** [if (F_CPU != 16000000) d = F_CPU / 16000000 * d;] *)
Definition avr_rescale (d : Z) : Z :=
  if F_CPU =? 16000000 then d else ulong (F_CPU / 16000000 * d).

(** ** ESP8266, ESP32: milliseconds of a duration *)

(** [unsigned long int ms = (us / 1000) + 0.5; if (ms == 0) ms = 1;] *)
Definition esp_ms (us : Z) : Z :=
  let ms := trunc (inject_Z (us / 1000) + half) in
  if ms =? 0 then 1 else ms.

(** ** Member functions *)

Open Scope cmd_scope.

Definition _loadRemaining (a : Arch) : Cmd :=
  match a with
  | ARDUINO_ARCH_AVR => emit_of (fun t => TCNT2_write (_remaining t))
  | _VARIANT_ARDUINO_STM32_ => skip
  | ARDUINO_ARCH_ESP => skip
  end.

Definition clearTimer (a : Arch) : Cmd :=
  store_type UTIMERLIB_TYPE_OFF ;;
  match a with
  | ARDUINO_ARCH_AVR => emit TIMSK2_clear_TOIE2 ;; emit SREG_clear_I
  | _VARIANT_ARDUINO_STM32_ => emit Timer3_pause
  | ARDUINO_ARCH_ESP => emit ticker_detach
  end.

Definition _attachInterrupt_us (a : Arch) (us : Z) : Cmd :=
  if us =? 0 then skip else
  match a with
  | ARDUINO_ARCH_AVR =>
      let p := avr_plan_us (avr_rescale us) in
      emit cli ;;
      store_overflows (fun _ => plan_overflows p) ;;
      store_remaining (fun _ => plan_remaining p) ;;
      store__overflows _overflows ;;
      store__remaining _remaining ;;
      emit ASSR_clear_AS2 ;;
      emit TCCR2A_write_COM2A1 ;;
      emit (TCCR2B_write_CS (CSMask p)) ;;
      (If (fun t => __overflows t =? 0) Then
         _loadRemaining a ;; store_remaining (fun _ => 0)
       Else
         emit (TCNT2_write 0)) ;;
      emit TIMSK2_set_TOIE2 ;;
      emit TIMSK2_clear_OCIE2A ;;
      emit sei
  | _VARIANT_ARDUINO_STM32_ =>
      emit Timer3_setMode ;;
      zero_counters ;;
      emit (Timer3_setPeriod us) ;;
      emit (Timer3_setCompare timerOverflow) ;;
      (If _toInit Then
         store_toInit false ;; emit Timer3_attachInterrupt
       Else skip) ;;
      emit Timer3_refresh ;;
      emit Timer3_resume
  | ARDUINO_ARCH_ESP =>
      zero_counters ;;
      emit (ticker_attach_ms (esp_ms us))
  end.

Definition _attachInterrupt_s (a : Arch) (s : Z) : Cmd :=
  if s =? 0 then skip else
  match a with
  | ARDUINO_ARCH_AVR =>
      let s := avr_rescale s in
      emit cli ;;
      store_overflows (fun t => avr_overflows_s (_overflows t) s) ;;
      store_remaining (fun _ => avr_remaining_s s) ;;
      store__overflows _overflows ;;
      store__remaining _remaining ;;
      emit ASSR_clear_AS2 ;;
      emit TCCR2A_write_COM2A1 ;;
      emit (TCCR2B_write_CS (Z.lor (Z.lor (bit CS22) (bit CS21)) (bit CS20))) ;;
      (If (fun t => __overflows t =? 0) Then
         _loadRemaining a
       Else
         emit (TCNT2_write 0)) ;;
      emit TIMSK2_set_TOIE2 ;;
      emit TIMSK2_clear_OCIE2A ;;
      emit sei
  | _VARIANT_ARDUINO_STM32_ =>
      emit Timer3_setMode ;;
      emit (Timer3_setPeriod 1000000) ;;
      emit (Timer3_setCompare (compare_literal 1000000)) ;;
      store_overflows (fun _ => s) ;;
      store__overflows _overflows ;;
      store_remaining (fun _ => 0) ;;
      store__remaining _remaining ;;
      (If _toInit Then
         store_toInit false ;; emit Timer3_attachInterrupt
       Else skip) ;;
      emit Timer3_refresh ;;
      emit Timer3_resume
  | ARDUINO_ARCH_ESP =>
      zero_counters ;;
      emit (ticker_attach s)
  end.

Definition setInterval_us (a : Arch) (cb : Callback) (us : Z) : Cmd :=
  clearTimer a ;;
  store_cb cb ;;
  store_type UTIMERLIB_TYPE_INTERVAL ;;
  _attachInterrupt_us a us.

Definition setTimeout_us (a : Arch) (cb : Callback) (us : Z) : Cmd :=
  clearTimer a ;;
  store_cb cb ;;
  store_type UTIMERLIB_TYPE_TIMEOUT ;;
  _attachInterrupt_us a us.

Definition setInterval_s (a : Arch) (cb : Callback) (s : Z) : Cmd :=
  clearTimer a ;;
  store_cb cb ;;
  store_type UTIMERLIB_TYPE_INTERVAL ;;
  _attachInterrupt_s a s.

Definition setTimeout_s (a : Arch) (cb : Callback) (s : Z) : Cmd :=
  clearTimer a ;;
  store_cb cb ;;
  store_type UTIMERLIB_TYPE_TIMEOUT ;;
  _attachInterrupt_s a s.

(** The body of [_interrupt] on the targets that count overflows (every
    target but STM32). *)
Definition _interrupt_overflows (a : Arch) : Cmd :=
  (If (fun t => 0 <? _overflows t) Then
     store_overflows (fun t => _overflows t - 1)
   Else skip) ;;
  (If (fun t => (_overflows t =? 0) && (0 <? _remaining t)) Then
     _loadRemaining a ;;
     store_remaining (fun _ => 0)
   Else If (fun t => (_overflows t =? 0) && (_remaining t =? 0)) Then
     (If is_type UTIMERLIB_TYPE_TIMEOUT Then
        clearTimer a
      Else If is_type UTIMERLIB_TYPE_INTERVAL Then
        (If (fun t => __overflows t =? 0) Then
           store_remaining __remaining ;;
           _loadRemaining a ;;
           store_remaining (fun _ => 0)
         Else
           store_overflows __overflows ;;
           store_remaining __remaining)
      Else skip) ;;
     call_cb
   Else skip).

Definition _interrupt (a : Arch) : Cmd :=
  If is_type UTIMERLIB_TYPE_OFF Then skip
  Else match a with
       | _VARIANT_ARDUINO_STM32_ => call_cb
       | ARDUINO_ARCH_AVR | ARDUINO_ARCH_ESP => _interrupt_overflows a
       end.

(** The hardware expiry event: [ISR(TIMER2_OVF_vect)] on AVR and the static
    [uTimerLib::interrupt] on STM32 and ESP all call [_interrupt] on the one
    object. *)
Definition expiry (a : Arch) : Cmd := _interrupt a.

Fixpoint expiries (a : Arch) (n : nat) : Cmd :=
  match n with
  | O => skip
  | S k => expiry a ;; expiries a k
  end.

Close Scope cmd_scope.

(** State and events of a command. *)
Definition state_after (c : Cmd) (t : uTimerLib) : uTimerLib := fst (c t).
Definition events_of (c : Cmd) (t : uTimerLib) : list Event := snd (c t).

(** The callback invocations among emitted events. *)
Definition calls (es : list Event) : list Event := filter is_call es.

(** The four public setters share their first three statements. *)
Definition prologue (a : Arch) (cb : Callback) (ty : TimerType) : Cmd :=
  seq (clearTimer a) (seq (store_cb cb) (store_type ty)).

(** The targets whose expiry handler counts overflows down. *)
Definition counts_overflows (a : Arch) : bool :=
  match a with
  | _VARIANT_ARDUINO_STM32_ => false
  | ARDUINO_ARCH_AVR | ARDUINO_ARCH_ESP => true
  end.

(** A state in mode Interval whose live counters are armed from its saved
    plan: a plan without overflows has its remainder loaded and nothing
    pending. *)
Definition armed_interval (t : uTimerLib) : Prop :=
  _type t = UTIMERLIB_TYPE_INTERVAL /\
  _overflows t = (if __overflows t =? 0 then 0 else __overflows t) /\
  _remaining t = (if __overflows t =? 0 then 0 else __remaining t).

(** ** Sequences of operations and reachable states *)

Inductive Op : Set :=
| SetTimeout_us (cb : Callback) (us : Z)
| SetTimeout_s (cb : Callback) (s : Z)
| SetInterval_us (cb : Callback) (us : Z)
| SetInterval_s (cb : Callback) (s : Z)
| ClearTimer
| Expiry.

Definition do_op (a : Arch) (op : Op) : Cmd :=
  match op with
  | SetTimeout_us cb us => setTimeout_us a cb us
  | SetTimeout_s cb s => setTimeout_s a cb s
  | SetInterval_us cb us => setInterval_us a cb us
  | SetInterval_s cb s => setInterval_s a cb s
  | ClearTimer => clearTimer a
  | Expiry => expiry a
  end.

(** A duration argument is an [unsigned long int]. *)
Definition is_ulong (d : Z) : bool := (0 <=? d) && (d <? 2 ^ ULONG_BITS).

Definition valid_op (op : Op) : bool :=
  match op with
  | SetTimeout_us _ d | SetTimeout_s _ d
  | SetInterval_us _ d | SetInterval_s _ d => is_ulong d
  | ClearTimer | Expiry => true
  end.

Fixpoint do_ops (a : Arch) (ops : list Op) : Cmd :=
  match ops with
  | [] => skip
  | op :: rest => seq (do_op a op) (do_ops a rest)
  end.

(** The states the one object [TimerLib] can be in on target [a]. *)
Inductive reachable (a : Arch) : uTimerLib -> Prop :=
| reachable_init : reachable a TimerLib
| reachable_step t op :
    reachable a t -> valid_op op = true ->
    reachable a (state_after (do_op a op) t).

(** The plan a state holds: the live counters and their saved copies. *)
Definition plan_of (t : uTimerLib) : Z * Z * Z * Z :=
  (_overflows t, _remaining t, __overflows t, __remaining t).

(** The number of hardware expiries one logical period of a plan takes: its
    full overflow periods and, if there is one, the remainder leg; a plan
    without overflows is its remainder leg alone. *)
Definition expiries_per_period (overflowCount remainder : Z) : nat :=
  if overflowCount =? 0 then 1%nat
  else if 0 <? remainder then S (Z.to_nat overflowCount)
  else Z.to_nat overflowCount.

(** Nearest integer to [num / den], ties rounding up: the rounding rule the
    spec words as "add 0.5 then truncate". *)
Definition round_half_up (num den : Z) : Z := (2 * num + den) / (2 * den).

(** ** The constructor and runs of the object *)

(** [uTimerLib::uTimerLib()]: on STM32 it records the object in the static
    [_instance] (there is one object, so the pointer is not modelled) and
    calls [clearTimer]; on the other targets it does nothing. *)
Definition uTimerLib_constructor (a : Arch) : Cmd :=
  match a with
  | _VARIANT_ARDUINO_STM32_ => clearTimer a
  | ARDUINO_ARCH_AVR | ARDUINO_ARCH_ESP => skip
  end.

(** The life of [TimerLib]: its construction, then operations. *)
Definition run (a : Arch) (ops : list Op) : Cmd :=
  seq (uTimerLib_constructor a) (do_ops a ops).

(** A state in mode Timeout whose live counters are armed from its saved
    plan. *)
Definition armed_timeout (t : uTimerLib) : Prop :=
  _type t = UTIMERLIB_TYPE_TIMEOUT /\
  _overflows t = (if __overflows t =? 0 then 0 else __overflows t) /\
  _remaining t = (if __overflows t =? 0 then 0 else __remaining t).

(** The operations that start a timer, and the callback they are given. *)
Definition callback_of (op : Op) : option Callback :=
  match op with
  | SetTimeout_us cb _ | SetTimeout_s cb _
  | SetInterval_us cb _ | SetInterval_s cb _ => Some cb
  | ClearTimer | Expiry => None
  end.

Definition duration_of (op : Op) : Z :=
  match op with
  | SetTimeout_us _ d | SetTimeout_s _ d
  | SetInterval_us _ d | SetInterval_s _ d => d
  | ClearTimer | Expiry => 0
  end.

Definition is_setter (op : Op) : bool :=
  match callback_of op with Some _ => true | None => false end.

(** ** Reading the emitted events *)

(** The values written to TCNT2. *)
Fixpoint TCNT2_values (es : list Event) : list Z :=
  match es with
  | [] => []
  | TCNT2_write v :: rest => v :: TCNT2_values rest
  | _ :: rest => TCNT2_values rest
  end.

Definition is_attachInterrupt (e : Event) : bool :=
  match e with Timer3_attachInterrupt => true | _ => false end.

(** How often [Timer3.attachInterrupt] is called. *)
Definition attachInterrupt_count (es : list Event) : nat :=
  length (filter is_attachInterrupt es).

(** 1 for a flag that is raised, 0 otherwise. *)
Definition raised (flag : bool) : nat := if flag then 1%nat else 0%nat.

(** 1 while [_toInit] is set, 0 afterwards. *)
Definition latch (b : bool) : nat := if b then 1%nat else 0%nat.

(** ** AVR: the prescaler table *)

(** The divisor selected by the clock-select bits CS22 CS21 CS20, as the
    table in [_attachInterrupt_us] lists them; with the mask 0 the timer is
    stopped.  One tick of Timer2 is that many CPU cycles, and one
    microsecond is 16 CPU cycles at the 16 MHz the source assumes. *)
Definition avr_prescaler (mask : Z) : Z :=
  if mask =? 1 then 1
  else if mask =? 2 then 8
  else if mask =? 3 then 32
  else if mask =? 4 then 64
  else if mask =? 5 then 128
  else if mask =? 6 then 256
  else if mask =? 7 then 1024
  else 0.

(** Timer2 counts up from the value loaded in TCNT2 and raises the overflow
    interrupt when it passes 255: the ticks until then. *)
Definition ticks_to_overflow (loaded : Z) : Z := 256 - loaded.

(** ** SAM, SAMD21, SAMD51: the expiry side

    The attach functions of these targets compute in floating point with
    decimal constants and are not embedded.  Their [_loadRemaining],
    [clearTimer], [_interrupt] and interrupt handlers are integer code on the
    same object. *)

Module SamFamily.

Inductive Target : Set :=
| ARDUINO_ARCH_SAM
| _SAMD21_
| __SAMD51__.

(** What the code of these targets does outside the object. *)
Inductive Effect : Set :=
(* SAM (Arduino Due), TC1 channel 0 *)
| TC_SetRC (v : Z)
| TC_GetStatus
| NVIC_DisableIRQ_TC3_IRQn
(* SAMD21, the registers of [_TC] *)
| COUNT_reg (v : Z)
| CC0_reg (v : Z)
| INTENSET_reg (v : Z)
| INTENSET_bit_OVF (v : Z)
| INTENSET_bit_MC0 (v : Z)
| CTRLA_clear_ENABLE
| INTFLAG_bit_OVF (v : Z)
| INTFLAG_bit_MC0 (v : Z)
| STATUS_SYNCBUSY_wait
(* SAMD51, the registers of [TC1->COUNT16] *)
| COUNT16_CC1_reg (v : Z)
| COUNT16_INTENSET_bit_OVF (v : Z)
| COUNT16_INTENSET_bit_MC0 (v : Z)
| COUNT16_SYNCBUSY_wait
| NVIC_DisableIRQ_TC1_IRQn
(* [_cb()]: the function called and the value of [_type] when it is
   entered *)
| invoke (f : option Callback) (seen : TimerType).

(** The callback invocations among the effects, as events [call]. *)
Fixpoint invocations (es : list Effect) : list Event :=
  match es with
  | [] => []
  | invoke f seen :: rest => call f seen :: invocations rest
  | _ :: rest => invocations rest
  end.

Definition Action : Type := uTimerLib -> uTimerLib * list Effect.

Definition nop : Action := fun t => (t, []).

Definition andthen (c1 c2 : Action) : Action :=
  fun t => (fst (c2 (fst (c1 t))), snd (c1 t) ++ snd (c2 (fst (c1 t)))).

Definition branch (b : uTimerLib -> bool) (c1 c2 : Action) : Action :=
  fun t => if b t then c1 t else c2 t.

Definition write (e : Effect) : Action := fun t => (t, [e]).

Definition write_of (f : uTimerLib -> Effect) : Action := fun t => (t, [f t]).

(** An assignment to a data member: one of the [store_] commands, which emit
    nothing. *)
Definition assign (c : Cmd) : Action := fun t => (fst (c t), []).

Definition invoke_cb : Action := fun t => (t, [invoke (_cb t) (_type t)]).

Declare Scope sam_scope.
Delimit Scope sam_scope with sam.
Bind Scope sam_scope with Action.
Notation "c1 ;; c2" := (andthen c1 c2)
  (at level 61, right associativity) : sam_scope.
Notation "'If' b 'Then' c1 'Else' c2" := (branch b c1 c2)
  (at level 62, b at level 10, c1 at level 61, right associativity) : sam_scope.

Open Scope sam_scope.

(** The two busy-wait loops on the synchronisation bit are taken to end: the
    bit is cleared by the hardware. *)
Definition _loadRemaining (a : Target) : Action :=
  match a with
  | ARDUINO_ARCH_SAM => write_of (fun t => TC_SetRC (_remaining t))
  | _SAMD21_ =>
      write (COUNT_reg 0) ;;
      write_of (fun t => CC0_reg (_remaining t)) ;;
      write (INTENSET_reg 0) ;;
      write (INTENSET_bit_MC0 1) ;;
      write STATUS_SYNCBUSY_wait
  | __SAMD51__ =>
      write_of (fun t => COUNT16_CC1_reg (_remaining t)) ;;
      write COUNT16_SYNCBUSY_wait
  end.

Definition clearTimer (a : Target) : Action :=
  assign (store_type UTIMERLIB_TYPE_OFF) ;;
  match a with
  | ARDUINO_ARCH_SAM => write NVIC_DisableIRQ_TC3_IRQn
  | _SAMD21_ => write (INTENSET_reg 0) ;; write CTRLA_clear_ENABLE
  | __SAMD51__ =>
      write (COUNT16_INTENSET_bit_OVF 1) ;; write NVIC_DisableIRQ_TC1_IRQn
  end.

(** The block that programs a full period again; [_interrupt] has it twice,
    with the same statements, for each target. *)
Definition reload_full_period (a : Target) : Action :=
  match a with
  | ARDUINO_ARCH_SAM => write (TC_SetRC 4294967295)
  | _SAMD21_ =>
      write (COUNT_reg 0) ;;
      write (INTENSET_reg 0) ;;
      write (INTENSET_bit_OVF 0) ;;
      write (INTENSET_bit_MC0 1) ;;
      write (CC0_reg 65535)
  | __SAMD51__ => write (COUNT16_CC1_reg 65535)
  end.

Definition _interrupt (a : Target) : Action :=
  If is_type UTIMERLIB_TYPE_OFF Then nop
  Else
    ((If (fun t => 0 <? _overflows t) Then
        assign (store_overflows (fun t => _overflows t - 1))
      Else nop) ;;
     (If (fun t => (_overflows t =? 0) && (0 <? _remaining t)) Then
        _loadRemaining a ;;
        assign (store_remaining (fun _ => 0))
      Else If (fun t => (_overflows t =? 0) && (_remaining t =? 0)) Then
        (If is_type UTIMERLIB_TYPE_TIMEOUT Then
           clearTimer a
         Else If is_type UTIMERLIB_TYPE_INTERVAL Then
           (If (fun t => __overflows t =? 0) Then
              assign (store_remaining __remaining) ;;
              _loadRemaining a ;;
              assign (store_remaining (fun _ => 0))
            Else
              assign (store_overflows __overflows) ;;
              assign (store_remaining __remaining) ;;
              reload_full_period a)
         Else nop) ;;
        invoke_cb
      Else If (fun t => 0 <? _overflows t) Then
        reload_full_period a
      Else nop)).

(** The interrupt handlers.  The SAMD handlers test the flags OVF and MC0
    of the interrupt flag register; their values when they are read are
    arguments. *)
Definition TC3_Handler_SAM : Action :=
  write TC_GetStatus ;; _interrupt ARDUINO_ARCH_SAM.

Definition TC3_Handler_SAMD21 (OVF MC0 : bool) : Action :=
  (if OVF then write (INTFLAG_bit_OVF 1) ;; _interrupt _SAMD21_ else nop) ;;
  (if MC0 then write (INTFLAG_bit_MC0 1) ;; _interrupt _SAMD21_ else nop).

Definition TC2_Handler (OVF MC0 : bool) : Action :=
  (if OVF then write (COUNT16_INTENSET_bit_OVF 1) else nop) ;;
  (if MC0 then write (COUNT16_INTENSET_bit_MC0 1) ;; _interrupt __SAMD51__
   else nop).

Fixpoint interrupts (a : Target) (n : nat) : Action :=
  match n with
  | O => nop
  | S k => _interrupt a ;; interrupts a k
  end.

Close Scope sam_scope.

End SamFamily.

(** * Properties *)

(** ** Arithmetic of the conversions *)

Lemma trunc_inject_add_half (q : Z) :
  0 <= q -> trunc (inject_Z q + half) = q.
Proof.
  intros Hq. unfold trunc, half, inject_Z, Qplus. cbn [Qnum Qden].
  rewrite Z.quot_div_nonneg by lia.
  replace (Z.pos (1 * 2)) with 2 by reflexivity.
  symmetry. apply Z.div_unique with (r := 1); lia.
Qed.

Lemma trunc_256_sub_half (q : Z) :
  0 <= q <= 255 -> trunc (256 - (inject_Z q + half)) = 255 - q.
Proof.
  intros Hq. unfold trunc, half, inject_Z, Qminus, Qplus, Qopp.
  cbn [Qnum Qden].
  replace (Z.pos (1 * (1 * 2))) with 2 by reflexivity.
  replace (Z.pos (1 * 2)) with 2 by reflexivity.
  rewrite Z.quot_div_nonneg by lia.
  symmetry. apply Z.div_unique with (r := 1); lia.
Qed.

Lemma trunc_floor_scale (q : Z) :
  0 <= q -> trunc (floor (inject_Z q) * 16384) = q * 16384.
Proof.
  intros Hq. unfold floor. rewrite Qfloor_Z.
  unfold trunc, inject_Z, Qmult. cbn [Qnum Qden].
  rewrite Z.quot_div_nonneg by lia.
  replace (Z.pos (1 * 1)) with 1 by reflexivity.
  now rewrite Z.div_1_r.
Qed.

Lemma ulong_small (z : Z) : 0 <= z < 2 ^ 32 -> ulong z = z.
Proof. intros H. unfold ulong, ULONG_BITS. now apply Z.mod_small. Qed.

Lemma ulong_range (z : Z) : 0 <= ulong z < 2 ^ 32.
Proof. unfold ulong, ULONG_BITS. apply Z.mod_pos_bound. lia. Qed.

Lemma is_ulong_spec (d : Z) : is_ulong d = true <-> 0 <= d < 2 ^ 32.
Proof.
  unfold is_ulong, ULONG_BITS.
  rewrite andb_true_iff, Z.leb_le, Z.ltb_lt. tauto.
Qed.

Lemma div_byte (x d : Z) :
  0 < d -> 0 <= x < 256 * d -> 0 <= x / d <= 255.
Proof.
  intros Hd Hx.
  assert (0 <= x / d) by (apply Z.div_pos; lia).
  assert (x / d < 256) by (apply Z.div_lt_upper_bound; lia).
  lia.
Qed.

(** ** The plans *)

(** On ESP the millisecond count is the truncated quotient, at least 1. *)
Lemma esp_ms_floor (us : Z) : 0 <= us -> esp_ms us = Z.max 1 (us / 1000).
Proof.
  intros Hus. unfold esp_ms.
  assert (Hq : 0 <= us / 1000) by (apply Z.div_pos; lia).
  rewrite trunc_inject_add_half by exact Hq.
  destruct (us / 1000 =? 0) eqn:E.
  - apply Z.eqb_eq in E. rewrite E. reflexivity.
  - apply Z.eqb_neq in E. lia.
Qed.

Lemma avr_rescale_id (d : Z) : avr_rescale d = d.
Proof. reflexivity. Qed.

Lemma CSMask_1024 : Z.lor (Z.lor (bit CS22) (bit CS21)) (bit CS20) = 7.
Proof. reflexivity. Qed.

(** From 16384 us on, the AVR plan counts the whole overflow periods of
    16384 us and stores 255 minus the whole ticks of 64 us that are left. *)
Lemma avr_plan_us_long (us : Z) :
  16384 <= us ->
  avr_plan_us us =
  mkPlan 7 (us / 16384) (255 - (us mod 16384) / 64).
Proof.
  intros Hus. unfold avr_plan_us.
  destruct (16384 <=? us) eqn:E; [| apply Z.leb_gt in E; lia].
  rewrite CSMask_1024. f_equal.
  apply trunc_256_sub_half.
  pose proof (Z.mod_pos_bound us 16384 ltac:(lia)) as Hm.
  apply div_byte; lia.
Qed.

(** Below 16384 us there is no overflow to count, and the value loaded in
    the 8-bit counter is a byte. *)
Lemma avr_plan_us_short (us : Z) :
  0 < us < 16384 ->
  plan_overflows (avr_plan_us us) = 0 /\
  0 <= plan_remaining (avr_plan_us us) <= 255.
Proof.
  intros Hus. unfold avr_plan_us.
  repeat match goal with
  | |- context [ ?x <=? us ] =>
      let E := fresh "E" in
      destruct (x <=? us) eqn:E;
      [ apply Z.leb_le in E | apply Z.leb_gt in E ]
  end; try (exfalso; lia);
  cbn [plan_overflows plan_remaining]; (split; [reflexivity |]);
  try (match goal with
       | |- context [ us / ?d ] =>
           pose proof (div_byte us d ltac:(lia) ltac:(lia));
           rewrite trunc_256_sub_half by assumption; lia
       end).
  - rewrite (ulong_small (us * 2)) by lia. rewrite ulong_small by lia. lia.
  - rewrite (ulong_small (us * 16)) by lia. rewrite ulong_small by lia. lia.
Qed.

Lemma avr_plan_us_bounds (us : Z) :
  0 < us < 2 ^ 32 ->
  0 <= plan_overflows (avr_plan_us us) < 2 ^ 18 /\
  0 <= plan_remaining (avr_plan_us us) <= 255.
Proof.
  intros Hus. destruct (Z.lt_ge_cases us 16384) as [Hlt | Hge].
  - destruct (avr_plan_us_short us ltac:(lia)) as [-> Hr]. split; [lia | exact Hr].
  - rewrite avr_plan_us_long by exact Hge. cbn [plan_overflows plan_remaining].
    pose proof (Z.mod_pos_bound us 16384 ltac:(lia)) as Hm.
    pose proof (div_byte (us mod 16384) 64 ltac:(lia) ltac:(lia)).
    assert (0 <= us / 16384) by (apply Z.div_pos; lia).
    assert (us / 16384 < 2 ^ 18) by (apply Z.div_lt_upper_bound; lia).
    lia.
Qed.

(** From 16384 us on, unless 255 whole ticks are left after the overflow
    periods, the ticks the plan counts (256 per overflow period and
    [256 - _remaining] from the loaded value to the overflow) exceed the
    request by at most one tick of 64 us. *)
Lemma avr_plan_us_within_one_tick (us : Z) :
  16384 <= us ->
  (us mod 16384) / 64 < 255 ->
  let p := avr_plan_us us in
  let ticks := plan_overflows p * 256 + (256 - plan_remaining p) in
  0 < plan_remaining p /\ us < 64 * ticks <= us + 64.
Proof.
  intros Hus Hq. cbv zeta. rewrite avr_plan_us_long by exact Hus.
  cbn [plan_overflows plan_remaining].
  pose proof (Z.div_mod us 16384 ltac:(lia)) as H1.
  pose proof (Z.mod_pos_bound us 16384 ltac:(lia)) as H2.
  pose proof (Z.div_mod (us mod 16384) 64 ltac:(lia)) as H3.
  pose proof (Z.mod_pos_bound (us mod 16384) 64 ltac:(lia)) as H4.
  lia.
Qed.

(** The overflow count of [_attachInterrupt_s] on AVR reads the counter left
    by earlier calls: from a counter above 500000 the other formula is
    used. *)
Lemma avr_overflows_s_reads_counter :
  avr_overflows_s 0 1 = 61 /\ avr_overflows_s 500001 1 = 0.
Proof. split; reflexivity. Qed.

Lemma avr_overflows_s_low (old s : Z) :
  old <= 500000 -> avr_overflows_s old s = ulong (s * 1000000) / 16384.
Proof.
  intros Hold. unfold avr_overflows_s.
  destruct (500000 <? old) eqn:E; [apply Z.ltb_lt in E; lia | reflexivity].
Qed.

Lemma avr_overflows_s_bound (old s : Z) :
  old <= 500000 -> 0 <= avr_overflows_s old s < 2 ^ 18.
Proof.
  intros Hold. rewrite avr_overflows_s_low by exact Hold.
  pose proof (ulong_range (s * 1000000)) as Hr.
  split; [apply Z.div_pos; lia | apply Z.div_lt_upper_bound; lia].
Qed.

(** In the seconds path of AVR the value loaded in the counter is a byte. *)
Lemma avr_remaining_s_bounds (s : Z) :
  0 <= s -> 0 <= avr_remaining_s s <= 255.
Proof.
  intros Hs. unfold avr_remaining_s.
  destruct (16384 <? s).
  - set (m := ulong (ulong (s - _) * 1000000) mod 16384).
    pose proof (Z.mod_pos_bound (ulong (ulong (s - trunc (floor (inject_Z (s / 16384)) * 16384)) * 1000000)) 16384 ltac:(lia)) as Hm.
    fold m in Hm.
    pose proof (div_byte m 64 ltac:(lia) ltac:(lia)).
    rewrite trunc_256_sub_half by assumption. lia.
  - set (m := ulong (s * 1000000) mod 16384).
    pose proof (Z.mod_pos_bound (ulong (s * 1000000)) 16384 ltac:(lia)) as Hm.
    fold m in Hm.
    pose proof (div_byte m 64 ltac:(lia) ltac:(lia)).
    rewrite trunc_256_sub_half by assumption. lia.
Qed.

(** ** The object through the member functions *)

Arguments avr_plan_us : simpl never.
Arguments avr_overflows_s : simpl never.
Arguments avr_remaining_s : simpl never.
Arguments avr_rescale : simpl never.
Arguments esp_ms : simpl never.
Arguments ulong : simpl never.
Arguments Z.lor : simpl never.

Lemma seq_state (c1 c2 : Cmd) (t : uTimerLib) :
  state_after (seq c1 c2) t = state_after c2 (state_after c1 t).
Proof. reflexivity. Qed.

Lemma seq_events (c1 c2 : Cmd) (t : uTimerLib) :
  events_of (seq c1 c2) t =
  events_of c1 t ++ events_of c2 (state_after c1 t).
Proof. reflexivity. Qed.

Lemma calls_app (es1 es2 : list Event) :
  calls (es1 ++ es2) = calls es1 ++ calls es2.
Proof. apply filter_app. Qed.

Lemma clearTimer_state (a : Arch) (t : uTimerLib) :
  state_after (clearTimer a) t =
  mkTimer (_overflows t) (__overflows t) (_remaining t) (__remaining t)
          (_cb t) UTIMERLIB_TYPE_OFF (_toInit t).
Proof. destruct a; reflexivity. Qed.

Lemma clearTimer_calls (a : Arch) (t : uTimerLib) :
  calls (events_of (clearTimer a) t) = [].
Proof. destruct a; reflexivity. Qed.

(** The attach functions invoke no callback. *)
Lemma attach_us_calls (a : Arch) (us : Z) (t : uTimerLib) :
  calls (events_of (_attachInterrupt_us a us) t) = [].
Proof.
  unfold _attachInterrupt_us. destruct (us =? 0); [reflexivity |].
  destruct a; unfold cond; cbn.
  - destruct (plan_overflows (avr_plan_us (avr_rescale us)) =? 0); reflexivity.
  - destruct (_toInit t); reflexivity.
  - reflexivity.
Qed.

Lemma attach_s_calls (a : Arch) (s : Z) (t : uTimerLib) :
  calls (events_of (_attachInterrupt_s a s) t) = [].
Proof.
  unfold _attachInterrupt_s. destruct (s =? 0); [reflexivity |].
  destruct a; unfold cond; cbn.
  - destruct (avr_overflows_s (_overflows t) (avr_rescale s) =? 0); reflexivity.
  - destruct (_toInit t); reflexivity.
  - reflexivity.
Qed.

(** The object after the attach functions, field by field. *)
Lemma attach_us_state (a : Arch) (us : Z) (t : uTimerLib) :
  us <> 0 ->
  state_after (_attachInterrupt_us a us) t =
  match a with
  | ARDUINO_ARCH_AVR =>
      let p := avr_plan_us us in
      mkTimer (plan_overflows p) (plan_overflows p)
              (if plan_overflows p =? 0 then 0 else plan_remaining p)
              (plan_remaining p) (_cb t) (_type t) (_toInit t)
  | _VARIANT_ARDUINO_STM32_ => mkTimer 0 0 0 0 (_cb t) (_type t) false
  | ARDUINO_ARCH_ESP => mkTimer 0 0 0 0 (_cb t) (_type t) (_toInit t)
  end.
Proof.
  intros Hus. unfold _attachInterrupt_us.
  destruct (us =? 0) eqn:E; [apply Z.eqb_eq in E; contradiction |].
  destruct a; unfold state_after, cond; cbn.
  - rewrite avr_rescale_id.
    destruct (plan_overflows (avr_plan_us us) =? 0); reflexivity.
  - destruct (_toInit t); reflexivity.
  - reflexivity.
Qed.

Lemma attach_s_state (a : Arch) (s : Z) (t : uTimerLib) :
  s <> 0 ->
  state_after (_attachInterrupt_s a s) t =
  match a with
  | ARDUINO_ARCH_AVR =>
      mkTimer (avr_overflows_s (_overflows t) s)
              (avr_overflows_s (_overflows t) s)
              (avr_remaining_s s) (avr_remaining_s s)
              (_cb t) (_type t) (_toInit t)
  | _VARIANT_ARDUINO_STM32_ => mkTimer s s 0 0 (_cb t) (_type t) false
  | ARDUINO_ARCH_ESP => mkTimer 0 0 0 0 (_cb t) (_type t) (_toInit t)
  end.
Proof.
  intros Hs. unfold _attachInterrupt_s.
  destruct (s =? 0) eqn:E; [apply Z.eqb_eq in E; contradiction |].
  destruct a; unfold state_after, cond; cbn.
  - rewrite avr_rescale_id.
    destruct (avr_overflows_s (_overflows t) s =? 0); reflexivity.
  - destruct (_toInit t); reflexivity.
  - reflexivity.
Qed.

Lemma attach_us_zero (a : Arch) (t : uTimerLib) :
  _attachInterrupt_us a 0 t = (t, []).
Proof. reflexivity. Qed.

Lemma attach_s_zero (a : Arch) (t : uTimerLib) :
  _attachInterrupt_s a 0 t = (t, []).
Proof. reflexivity. Qed.

Lemma attach_us_frame (a : Arch) (us : Z) (t : uTimerLib) :
  _cb (state_after (_attachInterrupt_us a us) t) = _cb t /\
  _type (state_after (_attachInterrupt_us a us) t) = _type t.
Proof.
  destruct (Z.eq_dec us 0) as [-> | Hus]; [split; reflexivity |].
  rewrite attach_us_state by exact Hus. destruct a; split; reflexivity.
Qed.

Lemma attach_s_frame (a : Arch) (s : Z) (t : uTimerLib) :
  _cb (state_after (_attachInterrupt_s a s) t) = _cb t /\
  _type (state_after (_attachInterrupt_s a s) t) = _type t.
Proof.
  destruct (Z.eq_dec s 0) as [-> | Hs]; [split; reflexivity |].
  rewrite attach_s_state by exact Hs. destruct a; split; reflexivity.
Qed.

Lemma prologue_state (a : Arch) (cb : Callback) (ty : TimerType)
      (t : uTimerLib) :
  state_after (prologue a cb ty) t =
  mkTimer (_overflows t) (__overflows t) (_remaining t) (__remaining t)
          (Some cb) ty (_toInit t).
Proof. destruct a; reflexivity. Qed.

Lemma prologue_events (a : Arch) (cb : Callback) (ty : TimerType)
      (t : uTimerLib) :
  events_of (prologue a cb ty) t = events_of (clearTimer a) t.
Proof. destruct a; reflexivity. Qed.

Lemma setTimeout_us_split (a : Arch) (cb : Callback) (us : Z) (t : uTimerLib) :
  setTimeout_us a cb us t =
  seq (prologue a cb UTIMERLIB_TYPE_TIMEOUT) (_attachInterrupt_us a us) t.
Proof. destruct a; reflexivity. Qed.

Lemma setInterval_us_split (a : Arch) (cb : Callback) (us : Z) (t : uTimerLib) :
  setInterval_us a cb us t =
  seq (prologue a cb UTIMERLIB_TYPE_INTERVAL) (_attachInterrupt_us a us) t.
Proof. destruct a; reflexivity. Qed.

Lemma setTimeout_s_split (a : Arch) (cb : Callback) (s : Z) (t : uTimerLib) :
  setTimeout_s a cb s t =
  seq (prologue a cb UTIMERLIB_TYPE_TIMEOUT) (_attachInterrupt_s a s) t.
Proof. destruct a; reflexivity. Qed.

Lemma setInterval_s_split (a : Arch) (cb : Callback) (s : Z) (t : uTimerLib) :
  setInterval_s a cb s t =
  seq (prologue a cb UTIMERLIB_TYPE_INTERVAL) (_attachInterrupt_s a s) t.
Proof. destruct a; reflexivity. Qed.

Lemma setTimeout_us_calls (a : Arch) (cb : Callback) (us : Z) (t : uTimerLib) :
  calls (events_of (setTimeout_us a cb us) t) = [].
Proof.
  unfold events_of. rewrite setTimeout_us_split.
  change (calls (events_of (seq (prologue a cb UTIMERLIB_TYPE_TIMEOUT)
                                (_attachInterrupt_us a us)) t) = []).
  rewrite seq_events, calls_app, prologue_events, clearTimer_calls.
  apply attach_us_calls.
Qed.

Lemma setTimeout_s_calls (a : Arch) (cb : Callback) (s : Z) (t : uTimerLib) :
  calls (events_of (setTimeout_s a cb s) t) = [].
Proof.
  unfold events_of. rewrite setTimeout_s_split.
  change (calls (events_of (seq (prologue a cb UTIMERLIB_TYPE_TIMEOUT)
                                (_attachInterrupt_s a s)) t) = []).
  rewrite seq_events, calls_app, prologue_events, clearTimer_calls.
  apply attach_s_calls.
Qed.

Lemma setter_us_state (a : Arch) (cb : Callback) (ty : TimerType) (us : Z)
      (t : uTimerLib) :
  state_after (seq (prologue a cb ty) (_attachInterrupt_us a us)) t =
  state_after (_attachInterrupt_us a us)
    (mkTimer (_overflows t) (__overflows t) (_remaining t) (__remaining t)
             (Some cb) ty (_toInit t)).
Proof. rewrite seq_state, prologue_state. reflexivity. Qed.

Lemma setter_s_state (a : Arch) (cb : Callback) (ty : TimerType) (s : Z)
      (t : uTimerLib) :
  state_after (seq (prologue a cb ty) (_attachInterrupt_s a s)) t =
  state_after (_attachInterrupt_s a s)
    (mkTimer (_overflows t) (__overflows t) (_remaining t) (__remaining t)
             (Some cb) ty (_toInit t)).
Proof. rewrite seq_state, prologue_state. reflexivity. Qed.

(** The state after any operation, with the setters split in their shared
    prologue and the attach function. *)
Lemma do_op_state (a : Arch) (op : Op) (t : uTimerLib) :
  state_after (do_op a op) t =
  match op with
  | SetTimeout_us cb us =>
      state_after (_attachInterrupt_us a us)
        (mkTimer (_overflows t) (__overflows t) (_remaining t) (__remaining t)
                 (Some cb) UTIMERLIB_TYPE_TIMEOUT (_toInit t))
  | SetTimeout_s cb s =>
      state_after (_attachInterrupt_s a s)
        (mkTimer (_overflows t) (__overflows t) (_remaining t) (__remaining t)
                 (Some cb) UTIMERLIB_TYPE_TIMEOUT (_toInit t))
  | SetInterval_us cb us =>
      state_after (_attachInterrupt_us a us)
        (mkTimer (_overflows t) (__overflows t) (_remaining t) (__remaining t)
                 (Some cb) UTIMERLIB_TYPE_INTERVAL (_toInit t))
  | SetInterval_s cb s =>
      state_after (_attachInterrupt_s a s)
        (mkTimer (_overflows t) (__overflows t) (_remaining t) (__remaining t)
                 (Some cb) UTIMERLIB_TYPE_INTERVAL (_toInit t))
  | ClearTimer =>
      mkTimer (_overflows t) (__overflows t) (_remaining t) (__remaining t)
              (_cb t) UTIMERLIB_TYPE_OFF (_toInit t)
  | Expiry => state_after (expiry a) t
  end.
Proof.
  destruct op; cbn [do_op]; try reflexivity.
  - unfold state_after at 1. rewrite setTimeout_us_split. apply setter_us_state.
  - unfold state_after at 1. rewrite setTimeout_s_split. apply setter_s_state.
  - unfold state_after at 1. rewrite setInterval_us_split. apply setter_us_state.
  - unfold state_after at 1. rewrite setInterval_s_split. apply setter_s_state.
  - apply clearTimer_state.
Qed.

(** ** Expiry events *)

Ltac z_cases :=
  repeat (cbn;
          match goal with
          | |- context [ ?x <? ?y ] =>
              let E := fresh "E" in
              destruct (x <? y) eqn:E;
              [ apply Z.ltb_lt in E | apply Z.ltb_ge in E ];
              try (exfalso; lia)
          | |- context [ ?x =? ?y ] =>
              let E := fresh "E" in
              destruct (x =? y) eqn:E;
              [ apply Z.eqb_eq in E | apply Z.eqb_neq in E ];
              try (exfalso; lia)
          end).

Ltac same_state :=
  cbn; try reflexivity;
  f_equal; try reflexivity;
  f_equal; try reflexivity; lia.

Ltac open_interrupt :=
  unfold expiry, _interrupt, _interrupt_overflows, _loadRemaining, clearTimer,
    cond, seq, is_type, skip, call_cb, emit, emit_of,
    store_overflows, store_remaining, store_type.

(** An expiry in mode Off does nothing, on every target. *)
Lemma interrupt_off (a : Arch) (t : uTimerLib) :
  _type t = UTIMERLIB_TYPE_OFF -> _interrupt a t = (t, []).
Proof.
  intros Hoff. unfold _interrupt, cond, is_type. rewrite Hoff. reflexivity.
Qed.

Lemma expiries_off (a : Arch) (n : nat) (t : uTimerLib) :
  _type t = UTIMERLIB_TYPE_OFF -> expiries a n t = (t, []).
Proof.
  intros Hoff. induction n as [| n IH]; [reflexivity |].
  cbn [expiries]. unfold seq, expiry.
  rewrite (interrupt_off a t Hoff). cbn [fst snd]. rewrite IH. reflexivity.
Qed.

Lemma cleared_expiries_silent (a : Arch) (n : nat) (t : uTimerLib) :
  events_of (seq (clearTimer a) (expiries a n)) t =
  events_of (clearTimer a) t.
Proof.
  rewrite seq_events. unfold events_of at 2.
  rewrite expiries_off by (rewrite clearTimer_state; reflexivity).
  apply app_nil_r.
Qed.

(** On STM32 every expiry in a mode other than Off calls the callback and
    changes nothing. *)
Lemma expiry_stm32 (t : uTimerLib) :
  _type t <> UTIMERLIB_TYPE_OFF ->
  expiry _VARIANT_ARDUINO_STM32_ t = (t, [call (_cb t) (_type t)]).
Proof.
  intros Hty. unfold expiry, _interrupt, cond, is_type, call_cb.
  destruct (_type t); try contradiction; reflexivity.
Qed.

(** What no expiry changes: the callback, the saved plan, the flag of
    STM32; the mode stays or becomes Off; the live overflow count goes down
    or is set to the saved one. *)
Lemma expiry_frame (a : Arch) (t : uTimerLib) :
  _cb (state_after (expiry a) t) = _cb t /\
  _toInit (state_after (expiry a) t) = _toInit t /\
  __overflows (state_after (expiry a) t) = __overflows t /\
  __remaining (state_after (expiry a) t) = __remaining t /\
  (_type (state_after (expiry a) t) = _type t \/
   _type (state_after (expiry a) t) = UTIMERLIB_TYPE_OFF) /\
  (_overflows (state_after (expiry a) t) = _overflows t \/
   _overflows (state_after (expiry a) t) = _overflows t - 1 /\
     0 < _overflows t \/
   _overflows (state_after (expiry a) t) = __overflows t).
Proof.
  destruct t as [o O r R f ty ti]. unfold state_after.
  destruct a, ty; open_interrupt; z_cases; cbn; intuition lia.
Qed.

Lemma interval_expiry_type (a : Arch) (t : uTimerLib) :
  _type t = UTIMERLIB_TYPE_INTERVAL ->
  _type (state_after (expiry a) t) = UTIMERLIB_TYPE_INTERVAL.
Proof.
  destruct t as [o O r R f ty ti]. unfold state_after. cbn. intros ->.
  destruct a; open_interrupt; z_cases; reflexivity.
Qed.

Lemma expiries_S (a : Arch) (n : nat) (t : uTimerLib) :
  state_after (expiries a (S n)) t =
  state_after (expiries a n) (state_after (expiry a) t).
Proof. reflexivity. Qed.

Lemma expiries_app (a : Arch) (m n : nat) (t : uTimerLib) :
  expiries a (m + n) t = seq (expiries a m) (expiries a n) t.
Proof.
  revert t. induction m as [| m IH]; intros t.
  - unfold seq. cbn. now destruct (expiries a n t).
  - cbn [Nat.add expiries]. unfold seq at 1. rewrite IH.
    unfold seq. cbn [fst snd]. now rewrite app_assoc.
Qed.

Lemma expiries_interval_frame (a : Arch) (n : nat) (t : uTimerLib) :
  _type t = UTIMERLIB_TYPE_INTERVAL ->
  _type (state_after (expiries a n) t) = UTIMERLIB_TYPE_INTERVAL /\
  _cb (state_after (expiries a n) t) = _cb t /\
  _toInit (state_after (expiries a n) t) = _toInit t /\
  __overflows (state_after (expiries a n) t) = __overflows t /\
  __remaining (state_after (expiries a n) t) = __remaining t.
Proof.
  revert t. induction n as [| n IH]; intros t Hty.
  - repeat split; assumption || reflexivity.
  - rewrite expiries_S.
    destruct (expiry_frame a t) as (Hcb & Hti & HO & HR & _).
    destruct (IH _ (interval_expiry_type a t Hty)) as (H1 & H2 & H3 & H4 & H5).
    repeat split; congruence.
Qed.

Lemma stm32_expiries_state (n : nat) (t : uTimerLib) :
  state_after (expiries _VARIANT_ARDUINO_STM32_ n) t = t.
Proof.
  revert t. induction n as [| n IH]; intros t; [reflexivity |].
  rewrite expiries_S.
  assert (H : state_after (expiry _VARIANT_ARDUINO_STM32_) t = t).
  { unfold state_after, expiry, _interrupt, cond, is_type.
    destruct (_type t); reflexivity. }
  rewrite H. apply IH.
Qed.

(** ** The targets that count overflows

    The body of [_interrupt] outside the STM32 block, step by step, and what
    it does over a whole period of an interval. *)

Section CountingTargets.

Variable a : Arch.
Hypothesis Ha : counts_overflows a = true.

(** An overflow that is not the last one is only counted. *)
Lemma expiry_counts_down (t : uTimerLib) :
  _type t <> UTIMERLIB_TYPE_OFF ->
  2 <= _overflows t ->
  expiry a t =
  (mkTimer (_overflows t - 1) (__overflows t) (_remaining t) (__remaining t)
           (_cb t) (_type t) (_toInit t), []).
Proof.
  intros Hty Hov.
  destruct t as [o O r R f ty ti]; cbn in *.
  destruct a; try discriminate; destruct ty; try contradiction;
    open_interrupt; z_cases; same_state.
Qed.

(** The last overflow, or an expiry with none left, with a remainder
    pending: the remainder is loaded and no callback is invoked. *)
Lemma expiry_loads_remainder (t : uTimerLib) :
  _type t <> UTIMERLIB_TYPE_OFF ->
  0 <= _overflows t <= 1 ->
  0 < _remaining t ->
  expiry a t =
  (mkTimer 0 (__overflows t) 0 (__remaining t) (_cb t) (_type t) (_toInit t),
   events_of (_loadRemaining a) t).
Proof.
  intros Hty Hov Hrem.
  destruct t as [o O r R f ty ti]; cbn in *.
  destruct a; try discriminate; destruct ty; try contradiction;
    open_interrupt; z_cases; same_state.
Qed.

(** The completion event in mode Interval: the counters are armed again from
    the saved plan and then the callback is invoked. *)
Lemma expiry_completes_interval (t : uTimerLib) :
  _type t = UTIMERLIB_TYPE_INTERVAL ->
  0 <= _overflows t <= 1 ->
  _remaining t = 0 ->
  expiry a t =
  (mkTimer (if __overflows t =? 0 then 0 else __overflows t) (__overflows t)
           (if __overflows t =? 0 then 0 else __remaining t) (__remaining t)
           (_cb t) UTIMERLIB_TYPE_INTERVAL (_toInit t),
   (if __overflows t =? 0
    then match a with
         | ARDUINO_ARCH_AVR => [TCNT2_write (__remaining t)]
         | _ => []
         end
    else []) ++ [call (_cb t) UTIMERLIB_TYPE_INTERVAL]).
Proof.
  intros Hty Hov Hrem.
  destruct t as [o O r R f ty ti]; cbn in *. subst.
  destruct a; try discriminate;
    open_interrupt; z_cases; same_state.
Qed.

(** The completion event in mode Timeout: the timer is cleared and then the
    callback is invoked. *)
Lemma expiry_completes_timeout (t : uTimerLib) :
  _type t = UTIMERLIB_TYPE_TIMEOUT ->
  0 <= _overflows t <= 1 ->
  _remaining t = 0 ->
  expiry a t =
  (mkTimer 0 (__overflows t) 0 (__remaining t)
           (_cb t) UTIMERLIB_TYPE_OFF (_toInit t),
   events_of (clearTimer a) t ++ [call (_cb t) UTIMERLIB_TYPE_OFF]).
Proof.
  intros Hty Hov Hrem.
  destruct t as [o O r R f ty ti]; cbn in *. subst.
  destruct a; try discriminate;
    open_interrupt; z_cases; same_state.
Qed.

(** In mode Interval an expiry that invokes the callback leaves the counters
    armed from the saved plan. *)
Lemma interval_expiry_rearmed (t : uTimerLib) :
  _type t = UTIMERLIB_TYPE_INTERVAL ->
  calls (events_of (expiry a) t) <> [] ->
  state_after (expiry a) t =
  mkTimer (if __overflows t =? 0 then 0 else __overflows t) (__overflows t)
          (if __overflows t =? 0 then 0 else __remaining t) (__remaining t)
          (_cb t) UTIMERLIB_TYPE_INTERVAL (_toInit t).
Proof.
  destruct t as [o O r R f ty ti]. unfold state_after, events_of. cbn.
  intros -> Hcalls. revert Hcalls.
  destruct a; try discriminate;
    open_interrupt; z_cases; cbn; intros Hcalls;
    try (exfalso; apply Hcalls; reflexivity); same_state.
Qed.

(** While more than one overflow is left, expiries only count. *)
Lemma expiries_count_down (k : nat) (t : uTimerLib) :
  _type t <> UTIMERLIB_TYPE_OFF ->
  Z.of_nat k + 1 <= _overflows t ->
  expiries a k t =
  (mkTimer (_overflows t - Z.of_nat k) (__overflows t) (_remaining t)
           (__remaining t) (_cb t) (_type t) (_toInit t), []).
Proof.
  revert t. induction k as [| k IH]; intros t Hty Hov.
  - cbn [expiries]. unfold skip. destruct t; cbn. now rewrite Z.sub_0_r.
  - cbn [expiries]. unfold seq.
    rewrite (expiry_counts_down t Hty) by lia. cbn [fst snd].
    rewrite IH by (cbn; assumption || lia). cbn.
    do 2 f_equal. lia.
Qed.

(** The expiries of a period before its last one invoke no callback. *)
Lemma period_prefix_silent (t : uTimerLib) (j : nat) :
  armed_interval t ->
  0 <= __overflows t ->
  0 <= __remaining t ->
  (j < expiries_per_period (__overflows t) (__remaining t))%nat ->
  calls (events_of (expiries a j) t) = [].
Proof.
  intros (Hty & Hov & Hrem) HO HR. unfold expiries_per_period.
  destruct t as [o O r R f ty ti]. cbn in Hty, Hov, Hrem, HO, HR |- *.
  subst ty.
  assert (Hon : UTIMERLIB_TYPE_INTERVAL <> UTIMERLIB_TYPE_OFF) by discriminate.
  destruct (O =? 0) eqn:EO; rewrite ?EO in Hov, Hrem.
  - intros Hj. assert (j = 0%nat) by lia. subst j. reflexivity.
  - apply Z.eqb_neq in EO. subst o r. intros Hj.
    destruct (Nat.lt_ge_cases j (Z.to_nat O)) as [Hlt | Hge].
    + unfold events_of.
      rewrite expiries_count_down by (cbn; assumption || lia).
      reflexivity.
    + destruct (0 <? R) eqn:ER; [apply Z.ltb_lt in ER | lia].
      assert (Hjk : j = (Z.to_nat (O - 1) + 1)%nat) by lia.
      pose proof (expiries_count_down (Z.to_nat (O - 1))
                    (mkTimer O O R R f UTIMERLIB_TYPE_INTERVAL ti) Hon)
        as Hdown.
      cbn [_overflows __overflows _remaining __remaining _cb _type _toInit]
        in Hdown.
      replace (O - Z.of_nat (Z.to_nat (O - 1))) with 1 in Hdown by lia.
      specialize (Hdown ltac:(lia)).
      pose proof (expiry_loads_remainder
                    (mkTimer 1 O R R f UTIMERLIB_TYPE_INTERVAL ti) Hon)
        as Hload.
      cbn [_overflows __overflows _remaining __remaining _cb _type _toInit]
        in Hload.
      specialize (Hload ltac:(lia) ER).
      rewrite Hjk. unfold events_of. rewrite expiries_app. unfold seq.
      rewrite Hdown. cbn [fst snd expiries]. unfold seq, skip.
      rewrite Hload.
      destruct a; try discriminate; reflexivity.
Qed.

(** One period from an armed state: the object is back as it was armed and
    the callback has been invoked once. *)
Lemma period_once (t : uTimerLib) :
  armed_interval t ->
  0 <= __overflows t ->
  0 <= __remaining t ->
  state_after
    (expiries a (expiries_per_period (__overflows t) (__remaining t))) t = t /\
  calls (events_of
    (expiries a (expiries_per_period (__overflows t) (__remaining t))) t)
  = [call (_cb t) UTIMERLIB_TYPE_INTERVAL].
Proof.
  intros (Hty & Hov & Hrem) HO HR. unfold expiries_per_period.
  destruct t as [o O r R f ty ti]. cbn in Hty, Hov, Hrem, HO, HR |- *.
  subst ty.
  assert (Hon : UTIMERLIB_TYPE_INTERVAL <> UTIMERLIB_TYPE_OFF) by discriminate.
  destruct (O =? 0) eqn:EO; rewrite ?EO in Hov, Hrem.
  - apply Z.eqb_eq in EO. subst o r O. unfold state_after, events_of.
    cbn [expiries]. unfold seq, skip.
    rewrite expiry_completes_interval
      by (cbn; first [assumption | reflexivity | lia]).
    cbn. split; [reflexivity |].
    destruct a; try discriminate; reflexivity.
  - apply Z.eqb_neq in EO. subst o r.
    pose proof (expiries_count_down (Z.to_nat (O - 1))
                  (mkTimer O O R R f UTIMERLIB_TYPE_INTERVAL ti) Hon) as Hdown.
    cbn [_overflows __overflows _remaining __remaining _cb _type _toInit]
      in Hdown.
    replace (O - Z.of_nat (Z.to_nat (O - 1))) with 1 in Hdown by lia.
    specialize (Hdown ltac:(lia)).
    destruct (0 <? R) eqn:ER; [apply Z.ltb_lt in ER | apply Z.ltb_ge in ER].
    + replace (S (Z.to_nat O)) with (Z.to_nat (O - 1) + 2)%nat by lia.
      pose proof (expiry_loads_remainder
                    (mkTimer 1 O R R f UTIMERLIB_TYPE_INTERVAL ti) Hon) as Hload.
      cbn [_overflows __overflows _remaining __remaining _cb _type _toInit]
        in Hload.
      specialize (Hload ltac:(lia) ER).
      pose proof (expiry_completes_interval
                    (mkTimer 0 O 0 R f UTIMERLIB_TYPE_INTERVAL ti) eq_refl)
        as Hdone.
      cbn [_overflows __overflows _remaining __remaining _cb _type _toInit]
        in Hdone.
      specialize (Hdone ltac:(lia) eq_refl).
      apply Z.eqb_neq in EO. rewrite EO in Hdone.
      unfold state_after, events_of. rewrite expiries_app. unfold seq.
      rewrite Hdown. cbn [fst snd expiries]. unfold seq, skip.
      rewrite Hload. cbn [fst snd]. rewrite Hdone. cbn [fst snd].
      split; [reflexivity |].
      destruct a; try discriminate; reflexivity.
    + assert (R = 0) by lia. subst R.
      replace (Z.to_nat O) with (Z.to_nat (O - 1) + 1)%nat by lia.
      pose proof (expiry_completes_interval
                    (mkTimer 1 O 0 0 f UTIMERLIB_TYPE_INTERVAL ti) eq_refl)
        as Hdone.
      cbn [_overflows __overflows _remaining __remaining _cb _type _toInit]
        in Hdone.
      specialize (Hdone ltac:(lia) eq_refl).
      apply Z.eqb_neq in EO. rewrite EO in Hdone.
      unfold state_after, events_of. rewrite expiries_app. unfold seq.
      rewrite Hdown. cbn [fst snd expiries]. unfold seq, skip.
      rewrite Hdone. cbn [fst snd].
      split; reflexivity.
Qed.

(** After [n] periods and [j] more expiries, fewer than a period, the
    callback has been invoked [n] times: once per period, on its last
    expiry, for as long as expiries arrive. *)
Lemma interval_once_per_period (t : uTimerLib) (n j : nat) :
  armed_interval t ->
  0 <= __overflows t ->
  0 <= __remaining t ->
  (j < expiries_per_period (__overflows t) (__remaining t))%nat ->
  calls (events_of
    (expiries a (n * expiries_per_period (__overflows t) (__remaining t) + j))
    t)
  = repeat (call (_cb t) UTIMERLIB_TYPE_INTERVAL) n.
Proof.
  intros Harmed HO HR Hj.
  destruct (period_once t Harmed HO HR) as [Hstate Hcalls].
  induction n as [| n IH].
  - cbn [Nat.mul Nat.add repeat]. now apply period_prefix_silent.
  - cbn [Nat.mul repeat]. rewrite <- Nat.add_assoc.
    unfold events_of. rewrite expiries_app.
    change (calls (events_of (seq
      (expiries a (expiries_per_period (__overflows t) (__remaining t)))
      (expiries a
         (n * expiries_per_period (__overflows t) (__remaining t) + j))) t)
      = call (_cb t) UTIMERLIB_TYPE_INTERVAL
        :: repeat (call (_cb t) UTIMERLIB_TYPE_INTERVAL) n).
    rewrite seq_events, calls_app, Hcalls, Hstate, IH. reflexivity.
Qed.

End CountingTargets.

(** ** Armed intervals *)

(** Right after [setInterval_us] the counters are armed from the saved
    plan, on every target and whatever the object held before. *)
Lemma setInterval_us_armed (a : Arch) (cb : Callback) (us : Z) (t : uTimerLib) :
  us <> 0 -> armed_interval (state_after (setInterval_us a cb us) t).
Proof.
  intros Hus. unfold state_after. rewrite setInterval_us_split.
  change (armed_interval
            (state_after (seq (prologue a cb UTIMERLIB_TYPE_INTERVAL)
                              (_attachInterrupt_us a us)) t)).
  rewrite seq_state, attach_us_state by exact Hus.
  rewrite prologue_state. unfold armed_interval.
  destruct a; cbn; repeat split.
  all: destruct (plan_overflows (avr_plan_us us) =? 0) eqn:E;
       [ apply Z.eqb_eq in E; assumption || reflexivity | reflexivity ].
Qed.

(** From an armed state, every expiry that invokes the callback leaves the
    object exactly as it was armed. *)
Lemma armed_interval_repeats (a : Arch) (s1 : uTimerLib) (n : nat) :
  armed_interval s1 ->
  calls (events_of (expiry a) (state_after (expiries a n) s1)) <> [] ->
  state_after (expiry a) (state_after (expiries a n) s1) = s1.
Proof.
  intros (Hty & Hov & Hrem) Hcalls.
  destruct (counts_overflows a) eqn:Ha.
  - destruct (expiries_interval_frame a n s1 Hty) as (H1 & H2 & H3 & H4 & H5).
    rewrite (interval_expiry_rearmed a Ha _ H1 Hcalls).
    rewrite H2, H3, H4, H5, <- Hov, <- Hrem, <- Hty.
    destruct s1; reflexivity.
  - destruct a; try discriminate.
    rewrite stm32_expiries_state.
    unfold state_after, expiry, _interrupt, cond, is_type.
    destruct (_type s1); reflexivity.
Qed.

(** After [setInterval_us] on AVR and ESP, for every 32-bit duration: [n]
    periods and [j] more expiries, fewer than a period, have invoked the
    callback [n] times. *)
Lemma setInterval_us_once_per_period
      (a : Arch) (cb : Callback) (us : Z) (t0 : uTimerLib) (n j : nat) :
  counts_overflows a = true ->
  0 < us < 2 ^ 32 ->
  let t := state_after (setInterval_us a cb us) t0 in
  let period := expiries_per_period (__overflows t) (__remaining t) in
  (j < period)%nat ->
  calls (events_of (expiries a (n * period + j)) t)
  = repeat (call (Some cb) UTIMERLIB_TYPE_INTERVAL) n.
Proof.
  intros Ha Hus t period Hj.
  assert (Harmed : armed_interval t)
    by (apply setInterval_us_armed; lia).
  assert (Hfields : _cb t = Some cb /\ 0 <= __overflows t /\ 0 <= __remaining t).
  { subst t. change (setInterval_us a cb us)
      with (do_op a (SetInterval_us cb us)).
    rewrite do_op_state, attach_us_state by lia.
    pose proof (avr_plan_us_bounds us Hus).
    destruct a; cbn; repeat split; lia. }
  destruct Hfields as (Hcb & HO & HR).
  rewrite <- Hcb. now apply interval_once_per_period.
Qed.

(** ** Invariants of the reachable states *)

Lemma reachable_ops (a : Arch) (ops : list Op) (t : uTimerLib) :
  reachable a t -> forallb valid_op ops = true ->
  reachable a (state_after (do_ops a ops) t).
Proof.
  revert t. induction ops as [| op ops IH]; intros t Hreach Hvalid.
  - exact Hreach.
  - cbn in Hvalid. apply andb_true_iff in Hvalid as [Hop Hops].
    cbn [do_ops]. rewrite seq_state. apply IH; [| exact Hops].
    apply reachable_step; assumption.
Qed.

(** Whenever the mode is not Off a callback is stored. *)
Lemma reachable_mode_has_callback (a : Arch) (t : uTimerLib) :
  reachable a t -> _type t <> UTIMERLIB_TYPE_OFF -> _cb t <> None.
Proof.
  induction 1 as [| t op Hreach IH Hvalid]; [intros H; now contradiction H |].
  rewrite do_op_state. destruct op.
  - destruct (attach_us_frame a us
       (mkTimer (_overflows t) (__overflows t) (_remaining t) (__remaining t)
                (Some cb) UTIMERLIB_TYPE_TIMEOUT (_toInit t))) as [-> _].
    discriminate.
  - destruct (attach_s_frame a s
       (mkTimer (_overflows t) (__overflows t) (_remaining t) (__remaining t)
                (Some cb) UTIMERLIB_TYPE_TIMEOUT (_toInit t))) as [-> _].
    discriminate.
  - destruct (attach_us_frame a us
       (mkTimer (_overflows t) (__overflows t) (_remaining t) (__remaining t)
                (Some cb) UTIMERLIB_TYPE_INTERVAL (_toInit t))) as [-> _].
    discriminate.
  - destruct (attach_s_frame a s
       (mkTimer (_overflows t) (__overflows t) (_remaining t) (__remaining t)
                (Some cb) UTIMERLIB_TYPE_INTERVAL (_toInit t))) as [-> _].
    discriminate.
  - cbn. intros H; now contradiction H.
  - destruct (expiry_frame a t) as (Hcb & _ & _ & _ & Hty & _).
    rewrite Hcb. intros Hon. apply IH.
    destruct Hty as [Hty | Hty]; congruence.
Qed.

(** Once stored, the callback is never reset to [NULL]. *)
Lemma do_op_keeps_callback (a : Arch) (op : Op) (t : uTimerLib) :
  _cb t <> None -> _cb (state_after (do_op a op) t) <> None.
Proof.
  intros Hcb. rewrite do_op_state. destruct op.
  - destruct (attach_us_frame a us
       (mkTimer (_overflows t) (__overflows t) (_remaining t) (__remaining t)
                (Some cb) UTIMERLIB_TYPE_TIMEOUT (_toInit t))) as [-> _].
    discriminate.
  - destruct (attach_s_frame a s
       (mkTimer (_overflows t) (__overflows t) (_remaining t) (__remaining t)
                (Some cb) UTIMERLIB_TYPE_TIMEOUT (_toInit t))) as [-> _].
    discriminate.
  - destruct (attach_us_frame a us
       (mkTimer (_overflows t) (__overflows t) (_remaining t) (__remaining t)
                (Some cb) UTIMERLIB_TYPE_INTERVAL (_toInit t))) as [-> _].
    discriminate.
  - destruct (attach_s_frame a s
       (mkTimer (_overflows t) (__overflows t) (_remaining t) (__remaining t)
                (Some cb) UTIMERLIB_TYPE_INTERVAL (_toInit t))) as [-> _].
    discriminate.
  - exact Hcb.
  - destruct (expiry_frame a t) as (-> & _). exact Hcb.
Qed.

(** No sequence of operations on AVR brings an overflow count, live or
    saved, to 2^18: a 32-bit duration holds fewer periods of 16384. *)
Lemma avr_reachable_bounded (t : uTimerLib) :
  reachable ARDUINO_ARCH_AVR t ->
  _overflows t < 2 ^ 18 /\ __overflows t < 2 ^ 18.
Proof.
  induction 1 as [| t op Hreach [IH1 IH2] Hvalid]; [cbn; lia |].
  rewrite do_op_state. destruct op; cbn [valid_op] in Hvalid;
    try apply is_ulong_spec in Hvalid.
  - destruct (Z.eq_dec us 0) as [-> | Hus]; [cbn; lia |].
    rewrite attach_us_state by exact Hus. cbn.
    pose proof (avr_plan_us_bounds us ltac:(lia)). lia.
  - destruct (Z.eq_dec s 0) as [-> | Hs]; [cbn; lia |].
    rewrite attach_s_state by exact Hs. cbn.
    pose proof (avr_overflows_s_bound (_overflows t) s ltac:(lia)). lia.
  - destruct (Z.eq_dec us 0) as [-> | Hus]; [cbn; lia |].
    rewrite attach_us_state by exact Hus. cbn.
    pose proof (avr_plan_us_bounds us ltac:(lia)). lia.
  - destruct (Z.eq_dec s 0) as [-> | Hs]; [cbn; lia |].
    rewrite attach_s_state by exact Hs. cbn.
    pose proof (avr_overflows_s_bound (_overflows t) s ltac:(lia)). lia.
  - cbn. lia.
  - destruct (expiry_frame ARDUINO_ARCH_AVR t) as (_ & _ & HO & _ & _ & Hov).
    rewrite HO. lia.
Qed.

(** The plan computed for a duration, from two states in which the live
    overflow count is at most 500000. *)
Lemma attach_same_plan (a : Arch) (t1 t2 : uTimerLib) (d : Z) :
  d <> 0 ->
  (a = ARDUINO_ARCH_AVR -> _overflows t1 <= 500000 /\ _overflows t2 <= 500000) ->
  plan_of (state_after (_attachInterrupt_us a d) t1) =
  plan_of (state_after (_attachInterrupt_us a d) t2) /\
  plan_of (state_after (_attachInterrupt_s a d) t1) =
  plan_of (state_after (_attachInterrupt_s a d) t2).
Proof.
  intros Hd Hb. rewrite !attach_us_state, !attach_s_state by exact Hd.
  destruct a; split; try reflexivity.
  destruct (Hb eq_refl) as [H1 H2]. unfold plan_of. cbn.
  rewrite (avr_overflows_s_low _ _ H1), (avr_overflows_s_low _ _ H2).
  reflexivity.
Qed.

(** Up to 4294 seconds the product [s * 1000000] fits in 32 bits, and from a
    reachable state [_attachInterrupt_s] on AVR stores a plan of at least 61
    overflows. *)
Lemma avr_setInterval_s_state (cb : Callback) (s : Z) (t0 : uTimerLib) :
  reachable ARDUINO_ARCH_AVR t0 ->
  0 < s <= 4294 ->
  state_after (setInterval_s ARDUINO_ARCH_AVR cb s) t0 =
    mkTimer (s * 1000000 / 16384) (s * 1000000 / 16384)
            (avr_remaining_s s) (avr_remaining_s s)
            (Some cb) UTIMERLIB_TYPE_INTERVAL (_toInit t0) /\
  61 <= s * 1000000 / 16384.
Proof.
  intros Hreach Hs.
  pose proof (avr_reachable_bounded t0 Hreach) as [Hb _].
  split; [| apply Z.div_le_lower_bound; lia].
  change (setInterval_s ARDUINO_ARCH_AVR cb s)
    with (do_op ARDUINO_ARCH_AVR (SetInterval_s cb s)).
  rewrite do_op_state, attach_s_state by lia. cbn.
  rewrite avr_overflows_s_low by lia. rewrite ulong_small by lia.
  reflexivity.
Qed.

(** Within that range [setInterval_s] leaves the counters armed from the
    saved plan, on the three targets. *)
Lemma setInterval_s_armed (a : Arch) (cb : Callback) (s : Z) (t0 : uTimerLib) :
  reachable a t0 ->
  0 < s <= 4294 ->
  armed_interval (state_after (setInterval_s a cb s) t0).
Proof.
  intros Hreach Hs. destruct a.
  - destruct (avr_setInterval_s_state cb s t0 Hreach Hs) as [-> H61].
    unfold armed_interval. cbn.
    destruct (s * 1000000 / 16384 =? 0) eqn:E;
      [apply Z.eqb_eq in E; lia | repeat split].
  - change (setInterval_s _VARIANT_ARDUINO_STM32_ cb s)
      with (do_op _VARIANT_ARDUINO_STM32_ (SetInterval_s cb s)).
    rewrite do_op_state, attach_s_state by lia.
    unfold armed_interval. cbn.
    destruct (s =? 0) eqn:E; [apply Z.eqb_eq in E; lia | repeat split].
  - change (setInterval_s ARDUINO_ARCH_ESP cb s)
      with (do_op ARDUINO_ARCH_ESP (SetInterval_s cb s)).
    rewrite do_op_state, attach_s_state by lia.
    unfold armed_interval. cbn. repeat split.
Qed.

(** The cycle of an interval in seconds repeats as the one in microseconds
    does. *)
Lemma setInterval_s_repeats
      (a : Arch) (cb : Callback) (s : Z) (t0 : uTimerLib) (n : nat) :
  reachable a t0 ->
  0 < s <= 4294 ->
  calls (events_of (expiry a)
           (state_after (expiries a n)
              (state_after (setInterval_s a cb s) t0))) <> [] ->
  state_after (expiry a)
    (state_after (expiries a n) (state_after (setInterval_s a cb s) t0))
  = state_after (setInterval_s a cb s) t0.
Proof.
  intros Hreach Hs. apply armed_interval_repeats.
  now apply setInterval_s_armed.
Qed.

(** On AVR the callback of an interval in seconds is invoked once per
    period. *)
Lemma avr_setInterval_s_once_per_period
      (cb : Callback) (s : Z) (t0 : uTimerLib) (n j : nat) :
  reachable ARDUINO_ARCH_AVR t0 ->
  0 < s <= 4294 ->
  let t := state_after (setInterval_s ARDUINO_ARCH_AVR cb s) t0 in
  let period := expiries_per_period (__overflows t) (__remaining t) in
  (j < period)%nat ->
  calls (events_of (expiries ARDUINO_ARCH_AVR (n * period + j)) t)
  = repeat (call (Some cb) UTIMERLIB_TYPE_INTERVAL) n.
Proof.
  intros Hreach Hs t period Hj.
  assert (Harmed : armed_interval t) by now apply setInterval_s_armed.
  destruct (avr_setInterval_s_state cb s t0 Hreach Hs) as [Ht H61].
  fold t in Ht.
  pose proof (avr_remaining_s_bounds s ltac:(lia)) as Hrem.
  replace (Some cb) with (_cb t) by (rewrite Ht; reflexivity).
  apply interval_once_per_period; try assumption; try reflexivity.
  - rewrite Ht. cbn. lia.
  - rewrite Ht. cbn. lia.
Qed.

(** Beyond the range the product wraps.  For 2^26 seconds it wraps to 0: the
    plan has no overflow and the remainder 255, which the seconds path
    leaves pending after loading it, so that the first period takes two
    expiries and the later ones take one. *)
Lemma avr_setInterval_s_wrapped (cb : Callback) :
  let t := state_after (setInterval_s ARDUINO_ARCH_AVR cb 67108864) TimerLib in
  plan_of t = (0, 255, 0, 255) /\
  calls (events_of (expiries ARDUINO_ARCH_AVR 1) t) = [] /\
  calls (events_of (expiries ARDUINO_ARCH_AVR 3) t) =
    [call (Some cb) UTIMERLIB_TYPE_INTERVAL;
     call (Some cb) UTIMERLIB_TYPE_INTERVAL].
Proof. cbv zeta. repeat split; vm_compute; reflexivity. Qed.

(** * The claims *)

(** ** Duration planning *)

(** C1: on AVR the plan of 32704 us has one overflow period (32704 / 16384)
    and the remainder value 0, although 16320 us = 255 ticks of 64 us are
    left after the overflow period: [256 - (255 + 0.5)] truncates to 0, the
    value that means "no remainder leg".  The first expiry after
    [setTimeout_us] is therefore the completion: the callback runs after
    256 ticks, where the request is 511 ticks. *)
Theorem C1_avr_plan_loses_remainder (cb : Callback) :
  avr_plan_us 32704 = mkPlan 7 (32704 / 16384) 0 /\
  (32704 mod 16384) / 64 = 255 /\
  plan_of (state_after (setTimeout_us ARDUINO_ARCH_AVR cb 32704) TimerLib)
    = (1, 0, 1, 0) /\
  calls (events_of (expiry ARDUINO_ARCH_AVR)
           (state_after (setTimeout_us ARDUINO_ARCH_AVR cb 32704) TimerLib))
    = [call (Some cb) UTIMERLIB_TYPE_OFF].
Proof. repeat split; vm_compute; reflexivity. Qed.

(** C8: the conversions do not round to the nearest tick.  On ESP the
    quotient [us / 1000] is an integer division, so adding 0.5 and
    truncating gives it back: 1500 us become 1 ms, where the nearest
    millisecond, ties up, is 2.  On AVR the same pattern under [256 - ...]
    gives one tick more than the truncated quotient: for 16384 us, whose
    remainder is exactly 0 ticks, the counter is loaded with 255, one tick
    before overflow.  The two targets differ from the rule and from each
    other. *)
Theorem C8_conversions_truncate :
  esp_ms 1500 = 1 /\
  round_half_up 1500 1000 = 2 /\
  events_of (setTimeout_us ARDUINO_ARCH_ESP 0%nat 1500) TimerLib =
    [ticker_detach; ticker_attach_ms 1] /\
  plan_remaining (avr_plan_us 16384) = 256 - 1 /\
  round_half_up (16384 mod 16384) 64 = 0.
Proof. repeat split; vm_compute; reflexivity. Qed.

(** C10: on ESP8266 / ESP32 a request of [us > 0] microseconds arms the
    ticker for [max 1 (us / 1000)] milliseconds, the quotient being the
    truncating integer division; the only other thing the call does to the
    ticker is the detach of [clearTimer] before. *)
Theorem C10_esp_ticker_milliseconds
        (cb : Callback) (us : Z) (t : uTimerLib) :
  0 < us ->
  events_of (setTimeout_us ARDUINO_ARCH_ESP cb us) t =
    [ticker_detach; ticker_attach_ms (Z.max 1 (us / 1000))] /\
  events_of (setInterval_us ARDUINO_ARCH_ESP cb us) t =
    [ticker_detach; ticker_attach_ms (Z.max 1 (us / 1000))].
Proof.
  intros Hus.
  unfold events_of, setTimeout_us, setInterval_us, _attachInterrupt_us.
  destruct (us =? 0) eqn:E; [apply Z.eqb_eq in E; lia |].
  cbn. rewrite esp_ms_floor by lia. split; reflexivity.
Qed.

Lemma C10_esp_ticker_milliseconds_witness :
  0 < 999 /\
  events_of (setTimeout_us ARDUINO_ARCH_ESP 0%nat 999) TimerLib =
    [ticker_detach; ticker_attach_ms (Z.max 1 (999 / 1000))] /\
  events_of (setInterval_us ARDUINO_ARCH_ESP 0%nat 999) TimerLib =
    [ticker_detach; ticker_attach_ms (Z.max 1 (999 / 1000))].
Proof.
  split; [lia |].
  apply (C10_esp_ticker_milliseconds 0%nat 999 TimerLib). lia.
Defined.

(** C9: the plan a setter computes depends on the duration and the target
    only.  From any two states the object can be in, with any callbacks, the
    same duration [d > 0] gives the same live and saved overflow count and
    remainder: in microseconds nothing of the object is read, and in
    seconds the one read of the old overflow counter (on AVR) always sees a
    value below 2^18, so the branch taken is always the same. *)
Theorem C9_plan_depends_on_duration_only
        (a : Arch) (t1 t2 : uTimerLib) (cb1 cb2 : Callback) (d : Z) :
  reachable a t1 -> reachable a t2 -> 0 < d ->
  plan_of (state_after (setTimeout_us a cb1 d) t1) =
  plan_of (state_after (setTimeout_us a cb2 d) t2) /\
  plan_of (state_after (setInterval_us a cb1 d) t1) =
  plan_of (state_after (setInterval_us a cb2 d) t2) /\
  plan_of (state_after (setTimeout_s a cb1 d) t1) =
  plan_of (state_after (setTimeout_s a cb2 d) t2) /\
  plan_of (state_after (setInterval_s a cb1 d) t1) =
  plan_of (state_after (setInterval_s a cb2 d) t2).
Proof.
  intros Hr1 Hr2 Hd.
  assert (Hd' : d <> 0) by lia.
  assert (Hb : forall ty1 ty2,
    a = ARDUINO_ARCH_AVR ->
    _overflows (mkTimer (_overflows t1) (__overflows t1) (_remaining t1)
                  (__remaining t1) (Some cb1) ty1 (_toInit t1)) <= 500000 /\
    _overflows (mkTimer (_overflows t2) (__overflows t2) (_remaining t2)
                  (__remaining t2) (Some cb2) ty2 (_toInit t2)) <= 500000).
  { intros ty1 ty2 ->. cbn.
    pose proof (avr_reachable_bounded t1 Hr1).
    pose proof (avr_reachable_bounded t2 Hr2). lia. }
  change (setTimeout_us a cb1 d) with (do_op a (SetTimeout_us cb1 d)).
  change (setTimeout_us a cb2 d) with (do_op a (SetTimeout_us cb2 d)).
  change (setInterval_us a cb1 d) with (do_op a (SetInterval_us cb1 d)).
  change (setInterval_us a cb2 d) with (do_op a (SetInterval_us cb2 d)).
  change (setTimeout_s a cb1 d) with (do_op a (SetTimeout_s cb1 d)).
  change (setTimeout_s a cb2 d) with (do_op a (SetTimeout_s cb2 d)).
  change (setInterval_s a cb1 d) with (do_op a (SetInterval_s cb1 d)).
  change (setInterval_s a cb2 d) with (do_op a (SetInterval_s cb2 d)).
  rewrite !do_op_state.
  pose proof (attach_same_plan a _ _ d Hd'
                (Hb UTIMERLIB_TYPE_TIMEOUT UTIMERLIB_TYPE_TIMEOUT)) as [A B].
  pose proof (attach_same_plan a _ _ d Hd'
                (Hb UTIMERLIB_TYPE_INTERVAL UTIMERLIB_TYPE_INTERVAL)) as [C D].
  repeat split; assumption.
Qed.

Lemma C9_plan_depends_on_duration_only_witness :
  let t1 := TimerLib in
  let t2 := state_after
              (do_ops ARDUINO_ARCH_AVR
                 [SetInterval_us 7%nat 4294967295; Expiry; ClearTimer])
              TimerLib in
  reachable ARDUINO_ARCH_AVR t1 /\
  reachable ARDUINO_ARCH_AVR t2 /\
  0 < 3 /\
  plan_of (state_after (setTimeout_us ARDUINO_ARCH_AVR 1%nat 3) t1) =
  plan_of (state_after (setTimeout_us ARDUINO_ARCH_AVR 2%nat 3) t2) /\
  plan_of (state_after (setInterval_us ARDUINO_ARCH_AVR 1%nat 3) t1) =
  plan_of (state_after (setInterval_us ARDUINO_ARCH_AVR 2%nat 3) t2) /\
  plan_of (state_after (setTimeout_s ARDUINO_ARCH_AVR 1%nat 3) t1) =
  plan_of (state_after (setTimeout_s ARDUINO_ARCH_AVR 2%nat 3) t2) /\
  plan_of (state_after (setInterval_s ARDUINO_ARCH_AVR 1%nat 3) t1) =
  plan_of (state_after (setInterval_s ARDUINO_ARCH_AVR 2%nat 3) t2).
Proof.
  intros t1 t2.
  assert (H1 : reachable ARDUINO_ARCH_AVR t1) by apply reachable_init.
  assert (H2 : reachable ARDUINO_ARCH_AVR t2).
  { apply reachable_ops; [apply reachable_init | reflexivity]. }
  assert (H3 : 0 < 3) by lia.
  split; [exact H1 |]. split; [exact H2 |]. split; [exact H3 |].
  exact (C9_plan_depends_on_duration_only
           ARDUINO_ARCH_AVR t1 t2 1%nat 2%nat 3 H1 H2 H3).
Defined.

(** ** Zero durations *)

(** C5 (as amended): a setter called with duration 0 does exactly what its
    first three statements do: [clearTimer], the store of the callback and
    the store of the mode.  The attach function returns at once, so no
    counter of the plan changes and no timer period is programmed. *)
Theorem C5_zero_duration_arms_nothing
        (a : Arch) (cb : Callback) (t : uTimerLib) :
  (setTimeout_us a cb 0 t = prologue a cb UTIMERLIB_TYPE_TIMEOUT t /\
   setTimeout_s a cb 0 t = prologue a cb UTIMERLIB_TYPE_TIMEOUT t /\
   setInterval_us a cb 0 t = prologue a cb UTIMERLIB_TYPE_INTERVAL t /\
   setInterval_s a cb 0 t = prologue a cb UTIMERLIB_TYPE_INTERVAL t) /\
  (plan_of (state_after (setTimeout_us a cb 0) t) = plan_of t /\
   plan_of (state_after (setTimeout_s a cb 0) t) = plan_of t /\
   plan_of (state_after (setInterval_us a cb 0) t) = plan_of t /\
   plan_of (state_after (setInterval_s a cb 0) t) = plan_of t) /\
  (events_of (setTimeout_us a cb 0) t = events_of (clearTimer a) t /\
   events_of (setTimeout_s a cb 0) t = events_of (clearTimer a) t /\
   events_of (setInterval_us a cb 0) t = events_of (clearTimer a) t /\
   events_of (setInterval_s a cb 0) t = events_of (clearTimer a) t).
Proof.
  destruct a; repeat split; reflexivity.
Qed.

(** C5, the claim as stated fails: with a timeout of 1000 us pending,
    [setInterval_us] with duration 0 changes the mode and the stored
    callback and disables the overflow interrupt of the pending timeout. *)
Lemma C5_zero_duration_changes_mode :
  let t := state_after (setTimeout_us ARDUINO_ARCH_AVR 1%nat 1000) TimerLib in
  let t' := state_after (setInterval_us ARDUINO_ARCH_AVR 2%nat 0) t in
  _type t = UTIMERLIB_TYPE_TIMEOUT /\
  _type t' = UTIMERLIB_TYPE_INTERVAL /\
  _type t' <> _type t /\
  _cb t' <> _cb t /\
  events_of (setInterval_us ARDUINO_ARCH_AVR 2%nat 0) t =
    [TIMSK2_clear_TOIE2; SREG_clear_I].
Proof.
  cbv zeta. split; [| split; [| split; [| split]]];
    try (vm_compute; reflexivity); vm_compute; discriminate.
Qed.

(** ** The expiry-driven state machine *)

(** C2: on STM32 [setInterval_s] with 2 seconds programs Timer3 for a period
    of one second and stores the plan of 2 overflows and no remainder, but
    the expiry handler of this target calls the callback on every expiry and
    never counts: the two expiries of one logical period invoke the
    callback twice. *)
Theorem C2_stm32_seconds_call_every_expiry (cb : Callback) :
  let t := state_after (setInterval_s _VARIANT_ARDUINO_STM32_ cb 2) TimerLib in
  In (Timer3_setPeriod 1000000)
     (events_of (setInterval_s _VARIANT_ARDUINO_STM32_ cb 2) TimerLib) /\
  plan_of t = (2, 0, 2, 0) /\
  expiries_per_period (__overflows t) (__remaining t) = 2%nat /\
  calls (events_of (expiries _VARIANT_ARDUINO_STM32_ 2) t) =
    [call (Some cb) UTIMERLIB_TYPE_INTERVAL;
     call (Some cb) UTIMERLIB_TYPE_INTERVAL].
Proof.
  cbv zeta. split; [| repeat split; vm_compute; reflexivity].
  vm_compute. tauto.
Qed.

(** C3: on AVR, [setInterval_s] with 133144 seconds from the initial object.
    The count of timer overflows of that period, 133144 * 1000000 / 16384 =
    8126464, fits an [unsigned long], but the product is formed first and
    wraps to 13824, so the plan computed is no overflow and a remainder of
    39.  [_attachInterrupt_s] then loads the remainder and leaves
    [_remaining] pending, where [_attachInterrupt_us] and the re-arming in
    [_interrupt] clear it.  The first expiry therefore loads the remainder a
    second time and calls nothing, the second one completes the period and
    calls, and from then on every expiry completes a period: the object
    after a callback is not the object the setter armed, and the first
    period lasts two expiries where every later one lasts one. *)
Theorem C3_avr_seconds_first_period_differs (cb : Callback) :
  let armed :=
    state_after (setInterval_s ARDUINO_ARCH_AVR cb 133144) TimerLib in
  133144 * 1000000 / 16384 = 8126464 /\
  8126464 < 2 ^ ULONG_BITS /\
  plan_of armed = (0, 39, 0, 39) /\
  events_of (expiry ARDUINO_ARCH_AVR) armed = [TCNT2_write 39] /\
  calls (events_of (expiry ARDUINO_ARCH_AVR)
           (state_after (expiries ARDUINO_ARCH_AVR 1) armed))
  = [call (Some cb) UTIMERLIB_TYPE_INTERVAL] /\
  plan_of (state_after (expiries ARDUINO_ARCH_AVR 2) armed) = (0, 0, 0, 39) /\
  state_after (expiries ARDUINO_ARCH_AVR 2) armed <> armed /\
  calls (events_of (expiry ARDUINO_ARCH_AVR)
           (state_after (expiries ARDUINO_ARCH_AVR 2) armed))
  = [call (Some cb) UTIMERLIB_TYPE_INTERVAL] /\
  state_after (expiries ARDUINO_ARCH_AVR 3) armed
  = state_after (expiries ARDUINO_ARCH_AVR 2) armed.
Proof.
  cbv zeta.
  split; [vm_compute; reflexivity |].
  split; [vm_compute; reflexivity |].
  split; [vm_compute; reflexivity |].
  split; [vm_compute; reflexivity |].
  split; [vm_compute; reflexivity |].
  split; [vm_compute; reflexivity |].
  split; [vm_compute; discriminate |].
  split; vm_compute; reflexivity.
Qed.

(** C4: a timeout that is cleared before any expiry never invokes the
    callback, however many stale expiry events arrive after [clearTimer]:
    the handler returns at once because the mode is Off.  This holds on the
    three targets, for both units and for every duration. *)
Theorem C4_cleared_timeout_never_calls
        (a : Arch) (cb : Callback) (d : Z) (t : uTimerLib) (n : nat) :
  calls (events_of
           (seq (setTimeout_us a cb d) (seq (clearTimer a) (expiries a n))) t)
  = [] /\
  calls (events_of
           (seq (setTimeout_s a cb d) (seq (clearTimer a) (expiries a n))) t)
  = [] /\
  expiry a (state_after (clearTimer a) t) = (state_after (clearTimer a) t, []).
Proof.
  split; [| split].
  - rewrite seq_events, calls_app, setTimeout_us_calls.
    rewrite cleared_expiries_silent. apply clearTimer_calls.
  - rewrite seq_events, calls_app, setTimeout_s_calls.
    rewrite cleared_expiries_silent. apply clearTimer_calls.
  - apply interrupt_off. rewrite clearTimer_state. reflexivity.
Qed.

(** C7 (as amended): on the targets that count overflows, the completion
    event (no overflow left after this one, no remainder pending) invokes
    the callback exactly once, in either mode; in mode Timeout
    [clearTimer] runs first, so the callback is entered when the mode is
    already Off. *)
Theorem C7_completion_clears_then_calls (a : Arch) (t : uTimerLib) :
  counts_overflows a = true ->
  _type t <> UTIMERLIB_TYPE_OFF ->
  0 <= _overflows t <= 1 ->
  _remaining t = 0 ->
  (exists seen, calls (events_of (expiry a) t) = [call (_cb t) seen]) /\
  (_type t = UTIMERLIB_TYPE_TIMEOUT ->
   events_of (expiry a) t =
     events_of (clearTimer a) t ++ [call (_cb t) UTIMERLIB_TYPE_OFF] /\
   _type (state_after (expiry a) t) = UTIMERLIB_TYPE_OFF).
Proof.
  intros Ha Hty Hov Hrem. split.
  - destruct (_type t) eqn:E; [contradiction | |].
    + exists UTIMERLIB_TYPE_OFF. unfold events_of.
      rewrite (expiry_completes_timeout a Ha t E Hov Hrem). cbn [snd].
      rewrite calls_app, clearTimer_calls. reflexivity.
    + exists UTIMERLIB_TYPE_INTERVAL. unfold events_of.
      rewrite (expiry_completes_interval a Ha t E Hov Hrem). cbn [snd].
      rewrite calls_app.
      destruct (__overflows t =? 0); destruct a; reflexivity.
  - intros E. unfold events_of at 1, state_after.
    rewrite (expiry_completes_timeout a Ha t E Hov Hrem). split; reflexivity.
Qed.

Lemma C7_completion_clears_then_calls_witness :
  let t := mkTimer 1 1 0 0 (Some 7%nat) UTIMERLIB_TYPE_TIMEOUT true in
  counts_overflows ARDUINO_ARCH_AVR = true /\
  _type t <> UTIMERLIB_TYPE_OFF /\
  0 <= _overflows t <= 1 /\
  _remaining t = 0 /\
  (exists seen,
      calls (events_of (expiry ARDUINO_ARCH_AVR) t) = [call (_cb t) seen]) /\
  (_type t = UTIMERLIB_TYPE_TIMEOUT ->
   events_of (expiry ARDUINO_ARCH_AVR) t =
     events_of (clearTimer ARDUINO_ARCH_AVR) t
     ++ [call (_cb t) UTIMERLIB_TYPE_OFF] /\
   _type (state_after (expiry ARDUINO_ARCH_AVR) t) = UTIMERLIB_TYPE_OFF).
Proof.
  intros t.
  assert (H1 : counts_overflows ARDUINO_ARCH_AVR = true) by reflexivity.
  assert (H2 : _type t <> UTIMERLIB_TYPE_OFF) by (simpl; discriminate).
  assert (H3 : 0 <= _overflows t <= 1) by (simpl; lia).
  assert (H4 : _remaining t = 0) by reflexivity.
  split; [exact H1 |]. split; [exact H2 |]. split; [exact H3 |].
  split; [exact H4 |].
  exact (C7_completion_clears_then_calls ARDUINO_ARCH_AVR t H1 H2 H3 H4).
Defined.

(** C7, the claim as stated fails: in the completion event of a timeout the
    register writes of [clearTimer] come before the callback, which is
    entered with the mode Off, never with the mode Timeout. *)
Lemma C7_callback_runs_after_off :
  let t := state_after (setTimeout_us ARDUINO_ARCH_AVR 7%nat 100) TimerLib in
  _type t = UTIMERLIB_TYPE_TIMEOUT /\
  plan_of t = (0, 0, 0, 56) /\
  events_of (expiry ARDUINO_ARCH_AVR) t =
    [TIMSK2_clear_TOIE2; SREG_clear_I; call (Some 7%nat) UTIMERLIB_TYPE_OFF] /\
  ~ In (call (Some 7%nat) UTIMERLIB_TYPE_TIMEOUT)
       (events_of (expiry ARDUINO_ARCH_AVR) t).
Proof.
  cbv zeta. split; [| split; [| split]]; try (vm_compute; reflexivity).
  vm_compute. intros [H | [H | [H | []]]]; discriminate.
Qed.

(** ** Mode and callback *)

(** C6 (as amended): in every reachable state a mode other than Off comes
    with a stored callback; [clearTimer] sets the mode to Off and leaves the
    stored callback in place, and no operation ever resets a stored
    callback. *)
Theorem C6_mode_on_implies_callback (a : Arch) (t : uTimerLib) :
  reachable a t ->
  (_type t <> UTIMERLIB_TYPE_OFF -> _cb t <> None) /\
  _type (state_after (clearTimer a) t) = UTIMERLIB_TYPE_OFF /\
  _cb (state_after (clearTimer a) t) = _cb t /\
  (forall op, _cb t <> None -> _cb (state_after (do_op a op) t) <> None).
Proof.
  intros Hreach. split; [| split; [| split]].
  - apply reachable_mode_has_callback with (a := a). exact Hreach.
  - rewrite clearTimer_state. reflexivity.
  - rewrite clearTimer_state. reflexivity.
  - intros op. apply do_op_keeps_callback.
Qed.

Lemma C6_mode_on_implies_callback_witness :
  let t := state_after
             (do_ops ARDUINO_ARCH_AVR [SetInterval_us 7%nat 20000; Expiry])
             TimerLib in
  reachable ARDUINO_ARCH_AVR t /\
  (_type t <> UTIMERLIB_TYPE_OFF -> _cb t <> None) /\
  _type (state_after (clearTimer ARDUINO_ARCH_AVR) t) = UTIMERLIB_TYPE_OFF /\
  _cb (state_after (clearTimer ARDUINO_ARCH_AVR) t) = _cb t /\
  (forall op, _cb t <> None ->
              _cb (state_after (do_op ARDUINO_ARCH_AVR op) t) <> None).
Proof.
  intros t.
  assert (Hreach : reachable ARDUINO_ARCH_AVR t).
  { apply reachable_ops; [apply reachable_init | reflexivity]. }
  split; [exact Hreach |].
  exact (C6_mode_on_implies_callback ARDUINO_ARCH_AVR t Hreach).
Defined.

(** C6, the claim as stated fails: after [setTimeout_us] and [clearTimer]
    the mode is Off and the callback is still stored. *)
Lemma C6_callback_survives_clearTimer :
  let t := state_after
             (do_ops ARDUINO_ARCH_AVR [SetTimeout_us 7%nat 1000; ClearTimer])
             TimerLib in
  reachable ARDUINO_ARCH_AVR t /\
  _type t = UTIMERLIB_TYPE_OFF /\
  _cb t = Some 7%nat /\
  ~ (_cb t <> None <-> _type t <> UTIMERLIB_TYPE_OFF).
Proof.
  cbv zeta. split; [| split; [| split]].
  - apply reachable_ops; [apply reachable_init | reflexivity].
  - vm_compute. reflexivity.
  - vm_compute. reflexivity.
  - vm_compute. intros [H _]. apply H; [discriminate | reflexivity].
Qed.

(** * Further properties of the code *)

(** ** AVR: the time a plan stands for *)

Lemma avr_short_branch (us d mask : Z) :
  0 < d -> 0 <= us < 256 * d -> avr_prescaler mask = 16 * d ->
  let rem := trunc (256 - (inject_Z (us / d) + half)) in
  0 <= rem <= 255 /\
  16 * us <= ticks_to_overflow rem * avr_prescaler mask
          <= 16 * us + avr_prescaler mask.
Proof.
  intros Hd Hus Hmask. cbv zeta.
  pose proof (div_byte us d Hd Hus) as Hq.
  rewrite trunc_256_sub_half by exact Hq.
  rewrite Hmask. unfold ticks_to_overflow.
  pose proof (Z.div_mod us d ltac:(lia)) as H1.
  pose proof (Z.mod_pos_bound us d Hd) as H2.
  nia.
Qed.

(** X1: below 16384 us the AVR plan has no overflow to count, and the one
    leg it programs (from the loaded counter value to the overflow, at the
    prescaler selected) never ends before the requested time and ends at
    most one tick after it; below 128 us it ends exactly on time.  Times
    are in CPU cycles, 16 per microsecond. *)
Theorem X1_avr_short_plan_never_early (us : Z) :
  0 < us < 16384 ->
  plan_overflows (avr_plan_us us) = 0 /\
  0 <= plan_remaining (avr_plan_us us) <= 255 /\
  16 * us
    <= ticks_to_overflow (plan_remaining (avr_plan_us us))
       * avr_prescaler (CSMask (avr_plan_us us))
    <= 16 * us + avr_prescaler (CSMask (avr_plan_us us)) /\
  (us < 128 ->
   ticks_to_overflow (plan_remaining (avr_plan_us us))
   * avr_prescaler (CSMask (avr_plan_us us)) = 16 * us).
Proof.
  intros Hus. unfold avr_plan_us.
  repeat match goal with
  | |- context [ ?x <=? us ] =>
      let E := fresh "E" in
      destruct (x <=? us) eqn:E;
      [ apply Z.leb_le in E | apply Z.leb_gt in E ]
  end; try (exfalso; lia);
  cbn [plan_overflows plan_remaining CSMask]; (split; [reflexivity |]).
  - destruct (avr_short_branch us 64 7 ltac:(lia) ltac:(lia) eq_refl) as [A B].
    change (Z.lor (Z.lor (bit CS22) (bit CS21)) (bit CS20)) with 7.
    repeat split; try apply A; try apply B; lia.
  - destruct (avr_short_branch us 16 6 ltac:(lia) ltac:(lia) eq_refl) as [A B].
    change (Z.lor (bit CS22) (bit CS21)) with 6.
    repeat split; try apply A; try apply B; lia.
  - destruct (avr_short_branch us 8 5 ltac:(lia) ltac:(lia) eq_refl) as [A B].
    change (Z.lor (bit CS22) (bit CS20)) with 5.
    repeat split; try apply A; try apply B; lia.
  - destruct (avr_short_branch us 4 4 ltac:(lia) ltac:(lia) eq_refl) as [A B].
    change (bit CS22) with 4.
    repeat split; try apply A; try apply B; lia.
  - destruct (avr_short_branch us 2 3 ltac:(lia) ltac:(lia) eq_refl) as [A B].
    change (Z.lor (bit CS21) (bit CS20)) with 3.
    repeat split; try apply A; try apply B; lia.
  - change (bit CS21) with 2. change (avr_prescaler 2) with 8.
    rewrite (ulong_small (us * 2)) by lia. rewrite ulong_small by lia.
    unfold ticks_to_overflow. repeat split; lia.
  - change (bit CS20) with 1. change (avr_prescaler 1) with 1.
    rewrite (ulong_small (us * 16)) by lia. rewrite ulong_small by lia.
    unfold ticks_to_overflow. repeat split; lia.
Qed.

Lemma X1_avr_short_plan_never_early_witness :
  0 < 100 < 16384 /\
  plan_overflows (avr_plan_us 100) = 0 /\
  0 <= plan_remaining (avr_plan_us 100) <= 255 /\
  16 * 100
    <= ticks_to_overflow (plan_remaining (avr_plan_us 100))
       * avr_prescaler (CSMask (avr_plan_us 100))
    <= 16 * 100 + avr_prescaler (CSMask (avr_plan_us 100)) /\
  (100 < 128 ->
   ticks_to_overflow (plan_remaining (avr_plan_us 100))
   * avr_prescaler (CSMask (avr_plan_us 100)) = 16 * 100).
Proof.
  assert (H : 0 < 100 < 16384) by lia.
  split; [exact H |]. exact (X1_avr_short_plan_never_early 100 H).
Defined.

(** X2: from 16384 us on the AVR plan selects the prescaler 1024, counts the
    whole periods of 16384 us and stores a byte; unless 255 whole ticks of
    64 us are left after those periods, the remainder is pending (not 0)
    and the ticks the plan stands for, 256 per overflow and the ticks from
    the loaded value to the overflow, end after the requested time and at
    most one tick of 64 us after it. *)
Theorem X2_avr_long_plan_within_one_tick (us : Z) :
  16384 <= us ->
  (us mod 16384) / 64 < 255 ->
  avr_prescaler (CSMask (avr_plan_us us)) = 1024 /\
  plan_overflows (avr_plan_us us) = us / 16384 /\
  0 < plan_remaining (avr_plan_us us) <= 255 /\
  us < 64 * (plan_overflows (avr_plan_us us) * 256
             + ticks_to_overflow (plan_remaining (avr_plan_us us)))
     <= us + 64.
Proof.
  intros Hus Hq.
  destruct (avr_plan_us_within_one_tick us Hus Hq) as [Hpos Hticks].
  cbv zeta in Hticks. unfold ticks_to_overflow.
  rewrite avr_plan_us_long in * by exact Hus.
  cbn [plan_overflows plan_remaining CSMask] in *.
  pose proof (Z.mod_pos_bound us 16384 ltac:(lia)) as Hm.
  pose proof (div_byte (us mod 16384) 64 ltac:(lia) ltac:(lia)).
  repeat split; try reflexivity; lia.
Qed.

Lemma X2_avr_long_plan_within_one_tick_witness :
  16384 <= 20000 /\
  (20000 mod 16384) / 64 < 255 /\
  avr_prescaler (CSMask (avr_plan_us 20000)) = 1024 /\
  plan_overflows (avr_plan_us 20000) = 20000 / 16384 /\
  0 < plan_remaining (avr_plan_us 20000) <= 255 /\
  20000 < 64 * (plan_overflows (avr_plan_us 20000) * 256
                + ticks_to_overflow (plan_remaining (avr_plan_us 20000)))
        <= 20000 + 64.
Proof.
  assert (H1 : 16384 <= 20000) by lia.
  assert (H2 : (20000 mod 16384) / 64 < 255) by (vm_compute; reflexivity).
  split; [exact H1 |]. split; [exact H2 |].
  exact (X2_avr_long_plan_within_one_tick 20000 H1 H2).
Defined.

(** ** AVR: the plan of a duration in seconds *)

Lemma ulong_mod_16384 (x : Z) : ulong x mod 16384 = x mod 16384.
Proof.
  unfold ulong, ULONG_BITS.
  apply Z.mod_mod_divide. exists (2 ^ 18). reflexivity.
Qed.

(** X3: the two formulas of [_attachInterrupt_s] for the remainder on AVR
    (the "anti-overflow trick" above 16384 seconds and the direct one) give
    the same byte for every 32-bit number of seconds: 255 minus the whole
    ticks of 64 us in the remainder of the exact, unwrapped product
    [s * 1000000] by 16384. *)
Theorem X3_avr_seconds_remainder_exact (s : Z) :
  0 <= s < 2 ^ 32 ->
  avr_remaining_s s = 255 - ((s * 1000000) mod 16384) / 64 /\
  0 <= avr_remaining_s s <= 255.
Proof.
  intros Hs. split; [| apply avr_remaining_s_bounds; lia].
  unfold avr_remaining_s.
  assert (Hbyte : 0 <= (s * 1000000) mod 16384 / 64 <= 255).
  { pose proof (Z.mod_pos_bound (s * 1000000) 16384 ltac:(lia)).
    apply div_byte; lia. }
  destruct (16384 <? s) eqn:E.
  - assert (Hq : 0 <= s / 16384) by (apply Z.div_pos; lia).
    rewrite trunc_floor_scale by exact Hq.
    pose proof (Z.div_mod s 16384 ltac:(lia)) as Hdm.
    pose proof (Z.mod_pos_bound s 16384 ltac:(lia)) as Hm.
    replace (s - s / 16384 * 16384) with (s mod 16384) by lia.
    rewrite (ulong_small (s mod 16384)) by lia.
    rewrite ulong_mod_16384.
    rewrite Z.mul_mod_idemp_l by lia.
    apply trunc_256_sub_half. exact Hbyte.
  - rewrite ulong_mod_16384.
    apply trunc_256_sub_half. exact Hbyte.
Qed.

Lemma X3_avr_seconds_remainder_exact_witness :
  0 <= 100000 < 2 ^ 32 /\
  avr_remaining_s 100000 = 255 - ((100000 * 1000000) mod 16384) / 64 /\
  0 <= avr_remaining_s 100000 <= 255.
Proof.
  assert (H : 0 <= 100000 < 2 ^ 32) by lia.
  split; [exact H |]. exact (X3_avr_seconds_remainder_exact 100000 H).
Defined.

(** X4: on AVR, from any reachable state, a setter in seconds stores as
    overflow count the 32-bit product [s * 1000000], wrapped, divided by
    16384.  Up to 4294 seconds this is the exact number of whole periods of
    16384 us; for every longer duration the product wraps and the stored
    count is smaller than that number. *)
Theorem X4_avr_seconds_overflow_count
        (cb : Callback) (s : Z) (t0 : uTimerLib) :
  reachable ARDUINO_ARCH_AVR t0 ->
  0 < s < 2 ^ 32 ->
  __overflows (state_after (setTimeout_s ARDUINO_ARCH_AVR cb s) t0)
    = ((s * 1000000) mod 2 ^ 32) / 16384 /\
  __overflows (state_after (setInterval_s ARDUINO_ARCH_AVR cb s) t0)
    = ((s * 1000000) mod 2 ^ 32) / 16384 /\
  (s <= 4294 ->
   ((s * 1000000) mod 2 ^ 32) / 16384 = s * 1000000 / 16384) /\
  (4294 < s ->
   ((s * 1000000) mod 2 ^ 32) / 16384 < s * 1000000 / 16384).
Proof.
  intros Hreach Hs.
  pose proof (avr_reachable_bounded t0 Hreach) as [Hb _].
  change (setTimeout_s ARDUINO_ARCH_AVR cb s)
    with (do_op ARDUINO_ARCH_AVR (SetTimeout_s cb s)).
  change (setInterval_s ARDUINO_ARCH_AVR cb s)
    with (do_op ARDUINO_ARCH_AVR (SetInterval_s cb s)).
  rewrite !do_op_state, !attach_s_state by lia. cbn.
  rewrite avr_overflows_s_low by lia.
  split; [reflexivity |]. split; [reflexivity |]. split.
  - intros Hle. rewrite Z.mod_small by lia. reflexivity.
  - intros Hgt. change (2 ^ 32) with 4294967296 in *.
    pose proof (Z.mod_pos_bound (s * 1000000) 4294967296 ltac:(lia)) as Hm.
    assert (((s * 1000000) mod 4294967296) / 16384 < 262144)
      by (apply Z.div_lt_upper_bound; lia).
    assert (262144 <= s * 1000000 / 16384)
      by (apply Z.div_le_lower_bound; lia).
    lia.
Qed.

Lemma X4_avr_seconds_overflow_count_witness :
  reachable ARDUINO_ARCH_AVR TimerLib /\
  0 < 5000 < 2 ^ 32 /\
  __overflows (state_after (setTimeout_s ARDUINO_ARCH_AVR 0%nat 5000) TimerLib)
    = ((5000 * 1000000) mod 2 ^ 32) / 16384 /\
  __overflows (state_after (setInterval_s ARDUINO_ARCH_AVR 0%nat 5000) TimerLib)
    = ((5000 * 1000000) mod 2 ^ 32) / 16384 /\
  (5000 <= 4294 ->
   ((5000 * 1000000) mod 2 ^ 32) / 16384 = 5000 * 1000000 / 16384) /\
  (4294 < 5000 ->
   ((5000 * 1000000) mod 2 ^ 32) / 16384 < 5000 * 1000000 / 16384).
Proof.
  assert (H1 : reachable ARDUINO_ARCH_AVR TimerLib) by apply reachable_init.
  assert (H2 : 0 < 5000 < 2 ^ 32) by lia.
  split; [exact H1 |]. split; [exact H2 |].
  exact (X4_avr_seconds_overflow_count 0%nat 5000 TimerLib H1 H2).
Defined.

(** ** What expiries and [clearTimer] cannot do *)

(** An expiry invokes at most one callback, the stored one. *)
Lemma expiry_calls_shape (a : Arch) (t : uTimerLib) :
  calls (events_of (expiry a) t) = [] \/
  exists seen, calls (events_of (expiry a) t) = [call (_cb t) seen].
Proof.
  destruct t as [o O r R f ty ti].
  destruct a, ty, o as [| [p | p |] | p], r as [| p' | p'], O as [| q | q];
    first [ left; reflexivity | right; eexists; reflexivity ].
Qed.

(** The live remainder after an expiry is the one before, 0, or the saved
    one. *)
Lemma expiry_remaining_frame (a : Arch) (t : uTimerLib) :
  _remaining (state_after (expiry a) t) = _remaining t \/
  _remaining (state_after (expiry a) t) = 0 \/
  _remaining (state_after (expiry a) t) = __remaining t.
Proof.
  destruct t as [o O r R f ty ti].
  destruct a, ty, o as [| [p | p |] | p], r as [| p' | p'], O as [| q | q];
    first [ left; reflexivity
          | right; left; reflexivity
          | right; right; reflexivity ].
Qed.

Lemma passive_ops_call_stored (a : Arch) (ops : list Op) (t : uTimerLib) :
  forallb (fun op => negb (is_setter op)) ops = true ->
  Forall (fun e => exists seen, e = call (_cb t) seen)
         (calls (events_of (do_ops a ops) t)).
Proof.
  revert t. induction ops as [| op ops IH]; intros t Hops.
  - constructor.
  - cbn in Hops. apply andb_true_iff in Hops as [Hop Hrest].
    cbn [do_ops]. rewrite seq_events, calls_app. apply Forall_app. split.
    + destruct op; try discriminate; cbn [do_op].
      * rewrite clearTimer_calls. constructor.
      * destruct (expiry_calls_shape a t) as [-> | [seen ->]];
          repeat constructor. now exists seen.
    + assert (Hcb : _cb (state_after (do_op a op) t) = _cb t).
      { destruct op; try discriminate; cbn [do_op].
        - rewrite clearTimer_state. reflexivity.
        - apply expiry_frame. }
      rewrite <- Hcb. apply IH. exact Hrest.
Qed.

Lemma setter_stores_callback (a : Arch) (op : Op) (cb : Callback)
      (t : uTimerLib) :
  callback_of op = Some cb -> _cb (state_after (do_op a op) t) = Some cb.
Proof.
  intros Hop. rewrite do_op_state.
  destruct op; cbn in Hop; try discriminate; injection Hop as ->.
  - apply attach_us_frame.
  - apply attach_s_frame.
  - apply attach_us_frame.
  - apply attach_s_frame.
Qed.

(** X9: starting a timer replaces the callback for good.  After any setter
    given the callback [cb], on any target, from any state and with any
    duration, every callback invocation made by any later sequence of
    expiries and [clearTimer] calls is an invocation of [cb]. *)
Theorem X9_only_the_last_callback_is_called
        (a : Arch) (op : Op) (cb : Callback) (ops : list Op) (t : uTimerLib) :
  callback_of op = Some cb ->
  forallb (fun o => negb (is_setter o)) ops = true ->
  Forall (fun e => exists seen, e = call (Some cb) seen)
         (calls (events_of (do_ops a ops) (state_after (do_op a op) t))).
Proof.
  intros Hop Hops.
  rewrite <- (setter_stores_callback a op cb t Hop).
  apply passive_ops_call_stored. exact Hops.
Qed.

Lemma X9_only_the_last_callback_is_called_witness :
  let t := state_after (setInterval_us ARDUINO_ARCH_AVR 1%nat 20000) TimerLib in
  let ops := [Expiry; Expiry; Expiry; ClearTimer; Expiry] in
  callback_of (SetInterval_us 2%nat 100) = Some 2%nat /\
  forallb (fun o => negb (is_setter o)) ops = true /\
  Forall (fun e => exists seen, e = call (Some 2%nat) seen)
         (calls (events_of (do_ops ARDUINO_ARCH_AVR ops)
                   (state_after
                      (do_op ARDUINO_ARCH_AVR (SetInterval_us 2%nat 100)) t))).
Proof.
  intros t ops.
  assert (H1 : callback_of (SetInterval_us 2%nat 100) = Some 2%nat)
    by reflexivity.
  assert (H2 : forallb (fun o => negb (is_setter o)) ops = true)
    by reflexivity.
  split; [exact H1 |]. split; [exact H2 |].
  exact (X9_only_the_last_callback_is_called
           ARDUINO_ARCH_AVR (SetInterval_us 2%nat 100) 2%nat ops t H1 H2).
Defined.

(** ** The counters of the reachable states *)

Lemma reachable_counters (a : Arch) (t : uTimerLib) :
  reachable a t ->
  0 <= _overflows t <= __overflows t /\
  __overflows t < 2 ^ 32 /\
  (_remaining t = 0 \/ _remaining t = __remaining t) /\
  0 <= __remaining t <= 255.
Proof.
  induction 1 as [| t op Hreach (IHo & IHO & IHr & IHR) Hvalid];
    [cbn; lia |].
  assert (Hus : forall ty cb us, is_ulong us = true ->
    let t' := state_after (_attachInterrupt_us a us)
                (mkTimer (_overflows t) (__overflows t) (_remaining t)
                         (__remaining t) (Some cb) ty (_toInit t)) in
    0 <= _overflows t' <= __overflows t' /\ __overflows t' < 2 ^ 32 /\
    (_remaining t' = 0 \/ _remaining t' = __remaining t') /\
    0 <= __remaining t' <= 255).
  { intros ty cb us Hv. apply is_ulong_spec in Hv. cbv zeta.
    destruct (Z.eq_dec us 0) as [-> | Hne]; [cbn; lia |].
    rewrite attach_us_state by exact Hne.
    pose proof (avr_plan_us_bounds us ltac:(lia)) as [Hpo Hpr].
    destruct a; cbn; try lia.
    destruct (plan_overflows (avr_plan_us us) =? 0); lia. }
  assert (Hs : forall ty cb s, is_ulong s = true ->
    let t' := state_after (_attachInterrupt_s a s)
                (mkTimer (_overflows t) (__overflows t) (_remaining t)
                         (__remaining t) (Some cb) ty (_toInit t)) in
    0 <= _overflows t' <= __overflows t' /\ __overflows t' < 2 ^ 32 /\
    (_remaining t' = 0 \/ _remaining t' = __remaining t') /\
    0 <= __remaining t' <= 255).
  { intros ty cb s Hv. apply is_ulong_spec in Hv. cbv zeta.
    destruct (Z.eq_dec s 0) as [-> | Hne]; [cbn; lia |].
    rewrite attach_s_state by exact Hne.
    destruct a; cbn; try lia.
    pose proof (avr_remaining_s_bounds s ltac:(lia)).
    assert (0 <= avr_overflows_s (_overflows t) s < 2 ^ 32).
    { unfold avr_overflows_s. destruct (500000 <? _overflows t).
      - apply ulong_range.
      - pose proof (ulong_range (s * 1000000)).
        split; [apply Z.div_pos; lia |].
        apply Z.div_lt_upper_bound; lia. }
    lia. }
  rewrite do_op_state. destruct op; cbn [valid_op] in Hvalid.
  - apply Hus. exact Hvalid.
  - apply Hs. exact Hvalid.
  - apply Hus. exact Hvalid.
  - apply Hs. exact Hvalid.
  - cbn. lia.
  - destruct (expiry_frame a t) as (_ & _ & HO & HR & _ & Hov).
    pose proof (expiry_remaining_frame a t) as Hrem.
    rewrite HO, HR. lia.
Qed.

(** X10: in every state the object can reach, on any target, the live
    overflow count lies between 0 and the saved one (the decrement of
    [_interrupt] never wraps below zero), the saved count fits 32 bits, the
    live remainder is 0 or the saved one, and the saved remainder is a
    byte. *)
Theorem X10_reachable_counters_in_range (a : Arch) (t : uTimerLib) :
  reachable a t ->
  0 <= _overflows t <= __overflows t /\
  __overflows t < 2 ^ 32 /\
  (_remaining t = 0 \/ _remaining t = __remaining t) /\
  0 <= __remaining t <= 255.
Proof. apply reachable_counters. Qed.

Lemma X10_reachable_counters_in_range_witness :
  let t := state_after
             (do_ops ARDUINO_ARCH_AVR
                [SetTimeout_s 3%nat 100000; Expiry; Expiry;
                 SetInterval_us 4%nat 4294967295; Expiry])
             TimerLib in
  reachable ARDUINO_ARCH_AVR t /\
  0 <= _overflows t <= __overflows t /\
  __overflows t < 2 ^ 32 /\
  (_remaining t = 0 \/ _remaining t = __remaining t) /\
  0 <= __remaining t <= 255.
Proof.
  intros t.
  assert (H : reachable ARDUINO_ARCH_AVR t).
  { apply reachable_ops; [apply reachable_init | reflexivity]. }
  split; [exact H |].
  exact (X10_reachable_counters_in_range ARDUINO_ARCH_AVR t H).
Defined.

(** ** AVR: what is written to the 8-bit counter *)

Lemma TCNT2_values_app (es1 es2 : list Event) :
  TCNT2_values (es1 ++ es2) = TCNT2_values es1 ++ TCNT2_values es2.
Proof.
  induction es1 as [| e es1 IH]; [reflexivity |].
  destruct e; cbn; rewrite ?IH; reflexivity.
Qed.

Lemma avr_attach_us_TCNT2 (us : Z) (t : uTimerLib) :
  TCNT2_values (events_of (_attachInterrupt_us ARDUINO_ARCH_AVR us) t) =
  if us =? 0 then []
  else [if plan_overflows (avr_plan_us us) =? 0
        then plan_remaining (avr_plan_us us) else 0].
Proof.
  unfold _attachInterrupt_us, events_of.
  destruct (us =? 0); [reflexivity |].
  unfold cond. cbn. rewrite avr_rescale_id.
  destruct (plan_overflows (avr_plan_us us) =? 0); reflexivity.
Qed.

Lemma avr_attach_s_TCNT2 (s : Z) (t : uTimerLib) :
  TCNT2_values (events_of (_attachInterrupt_s ARDUINO_ARCH_AVR s) t) =
  if s =? 0 then []
  else [if avr_overflows_s (_overflows t) s =? 0
        then avr_remaining_s s else 0].
Proof.
  unfold _attachInterrupt_s, events_of.
  destruct (s =? 0); [reflexivity |].
  unfold cond. cbn. rewrite avr_rescale_id.
  destruct (avr_overflows_s (_overflows t) s =? 0); reflexivity.
Qed.

Lemma avr_expiry_TCNT2 (t : uTimerLib) :
  Forall (fun v => v = _remaining t \/ v = __remaining t)
         (TCNT2_values (events_of (expiry ARDUINO_ARCH_AVR) t)).
Proof.
  destruct t as [o O r R f ty ti].
  destruct ty, o as [| [p | p |] | p], r as [| p' | p'], O as [| q | q];
    cbn; repeat apply Forall_cons; try apply Forall_nil; auto.
Qed.

Lemma avr_op_TCNT2 (op : Op) (t : uTimerLib) :
  reachable ARDUINO_ARCH_AVR t -> valid_op op = true ->
  Forall (fun v => 0 <= v <= 255)
         (TCNT2_values (events_of (do_op ARDUINO_ARCH_AVR op) t)).
Proof.
  intros Hreach Hvalid.
  destruct (reachable_counters _ _ Hreach) as (_ & _ & Hrem & HR).
  assert (Hus : forall c u, is_ulong u = true ->
    Forall (fun v => 0 <= v <= 255)
      (TCNT2_values (events_of (_attachInterrupt_us ARDUINO_ARCH_AVR u) c))).
  { intros c u Hu. apply is_ulong_spec in Hu. rewrite avr_attach_us_TCNT2.
    destruct (u =? 0) eqn:E; [constructor |]. apply Z.eqb_neq in E.
    pose proof (avr_plan_us_bounds u ltac:(lia)) as [_ Hpr].
    repeat constructor;
      destruct (plan_overflows (avr_plan_us u) =? 0); lia. }
  assert (Hs : forall c u, is_ulong u = true ->
    Forall (fun v => 0 <= v <= 255)
      (TCNT2_values (events_of (_attachInterrupt_s ARDUINO_ARCH_AVR u) c))).
  { intros c u Hu. apply is_ulong_spec in Hu. rewrite avr_attach_s_TCNT2.
    destruct (u =? 0) eqn:E; [constructor |].
    pose proof (avr_remaining_s_bounds u ltac:(lia)).
    repeat constructor;
      destruct (avr_overflows_s (_overflows c) u =? 0); lia. }
  destruct op; cbn [do_op valid_op] in *.
  - unfold events_of. rewrite setTimeout_us_split.
    change (Forall (fun v => 0 <= v <= 255)
      (TCNT2_values (events_of (seq (prologue ARDUINO_ARCH_AVR cb
         UTIMERLIB_TYPE_TIMEOUT) (_attachInterrupt_us ARDUINO_ARCH_AVR us)) t))).
    rewrite seq_events, TCNT2_values_app. apply Forall_app. split.
    + constructor.
    + apply Hus. exact Hvalid.
  - unfold events_of. rewrite setTimeout_s_split.
    change (Forall (fun v => 0 <= v <= 255)
      (TCNT2_values (events_of (seq (prologue ARDUINO_ARCH_AVR cb
         UTIMERLIB_TYPE_TIMEOUT) (_attachInterrupt_s ARDUINO_ARCH_AVR s)) t))).
    rewrite seq_events, TCNT2_values_app. apply Forall_app. split.
    + constructor.
    + apply Hs. exact Hvalid.
  - unfold events_of. rewrite setInterval_us_split.
    change (Forall (fun v => 0 <= v <= 255)
      (TCNT2_values (events_of (seq (prologue ARDUINO_ARCH_AVR cb
         UTIMERLIB_TYPE_INTERVAL) (_attachInterrupt_us ARDUINO_ARCH_AVR us)) t))).
    rewrite seq_events, TCNT2_values_app. apply Forall_app. split.
    + constructor.
    + apply Hus. exact Hvalid.
  - unfold events_of. rewrite setInterval_s_split.
    change (Forall (fun v => 0 <= v <= 255)
      (TCNT2_values (events_of (seq (prologue ARDUINO_ARCH_AVR cb
         UTIMERLIB_TYPE_INTERVAL) (_attachInterrupt_s ARDUINO_ARCH_AVR s)) t))).
    rewrite seq_events, TCNT2_values_app. apply Forall_app. split.
    + constructor.
    + apply Hs. exact Hvalid.
  - constructor.
  - eapply Forall_impl; [| apply avr_expiry_TCNT2].
    cbn beta. intros v [-> | ->]; lia.
Qed.

Lemma avr_ops_TCNT2 (ops : list Op) (t : uTimerLib) :
  reachable ARDUINO_ARCH_AVR t -> forallb valid_op ops = true ->
  Forall (fun v => 0 <= v <= 255)
         (TCNT2_values (events_of (do_ops ARDUINO_ARCH_AVR ops) t)).
Proof.
  revert t. induction ops as [| op ops IH]; intros t Hreach Hvalid.
  - constructor.
  - cbn in Hvalid. apply andb_true_iff in Hvalid as [Hop Hops].
    cbn [do_ops]. rewrite seq_events, TCNT2_values_app.
    apply Forall_app. split.
    + now apply avr_op_TCNT2.
    + apply IH; [| exact Hops]. now apply reachable_step.
Qed.

(** X11: on AVR, in every run of the object (its construction, then any
    sequence of setters with 32-bit durations, [clearTimer] calls and
    expiries), every value written to the 8-bit counter TCNT2 is within
    0..255: no load is ever truncated by the register. *)
Theorem X11_avr_counter_loads_are_bytes (ops : list Op) :
  forallb valid_op ops = true ->
  Forall (fun v => 0 <= v <= 255)
         (TCNT2_values (events_of (run ARDUINO_ARCH_AVR ops) TimerLib)).
Proof.
  intros Hvalid. unfold run. rewrite seq_events, TCNT2_values_app.
  apply Forall_app. split; [constructor |].
  apply avr_ops_TCNT2; [apply reachable_init | exact Hvalid].
Qed.

Lemma X11_avr_counter_loads_are_bytes_witness :
  let ops := [SetTimeout_us 1%nat 100; Expiry;
              SetInterval_s 2%nat 67108864; Expiry; Expiry;
              SetInterval_us 3%nat 20000; Expiry; Expiry] in
  forallb valid_op ops = true /\
  Forall (fun v => 0 <= v <= 255)
         (TCNT2_values (events_of (run ARDUINO_ARCH_AVR ops) TimerLib)).
Proof.
  intros ops.
  assert (H : forallb valid_op ops = true) by reflexivity.
  split; [exact H |].
  exact (X11_avr_counter_loads_are_bytes ops H).
Defined.

(** ** STM32: the interrupt is attached once, and every expiry calls *)

Lemma attachInterrupt_count_app (es1 es2 : list Event) :
  attachInterrupt_count (es1 ++ es2) =
  (attachInterrupt_count es1 + attachInterrupt_count es2)%nat.
Proof.
  unfold attachInterrupt_count. now rewrite filter_app, length_app.
Qed.

Lemma stm32_op_attachInterrupt (op : Op) (t : uTimerLib) :
  (attachInterrupt_count (events_of (do_op _VARIANT_ARDUINO_STM32_ op) t)
   + latch (_toInit (state_after (do_op _VARIANT_ARDUINO_STM32_ op) t)))%nat
  = latch (_toInit t).
Proof.
  destruct t as [o O r R f ty ti]. unfold events_of, state_after.
  destruct op; cbn [do_op].
  - unfold setTimeout_us, _attachInterrupt_us.
    destruct (us =? 0); [destruct ti; reflexivity |].
    unfold cond. cbn. destruct ti; reflexivity.
  - unfold setTimeout_s, _attachInterrupt_s.
    destruct (s =? 0); [destruct ti; reflexivity |].
    unfold cond. cbn. destruct ti; reflexivity.
  - unfold setInterval_us, _attachInterrupt_us.
    destruct (us =? 0); [destruct ti; reflexivity |].
    unfold cond. cbn. destruct ti; reflexivity.
  - unfold setInterval_s, _attachInterrupt_s.
    destruct (s =? 0); [destruct ti; reflexivity |].
    unfold cond. cbn. destruct ti; reflexivity.
  - destruct ti; reflexivity.
  - unfold expiry, _interrupt, cond, is_type. destruct ty, ti; reflexivity.
Qed.

Lemma stm32_ops_attachInterrupt (ops : list Op) (t : uTimerLib) :
  (attachInterrupt_count (events_of (do_ops _VARIANT_ARDUINO_STM32_ ops) t)
   + latch (_toInit (state_after (do_ops _VARIANT_ARDUINO_STM32_ ops) t)))%nat
  = latch (_toInit t).
Proof.
  revert t. induction ops as [| op ops IH]; intros t.
  - reflexivity.
  - cbn [do_ops]. rewrite seq_events, seq_state, attachInterrupt_count_app.
    rewrite <- Nat.add_assoc, IH. apply stm32_op_attachInterrupt.
Qed.

(** X8: on STM32 [Timer3.attachInterrupt] is called at most once in the life
    of the object, whatever the operations and their arguments: it is
    called by the first setter with a duration other than 0, which clears
    [_toInit], and never again. *)
Theorem X8_stm32_interrupt_attached_once (ops : list Op) :
  (attachInterrupt_count
     (events_of (run _VARIANT_ARDUINO_STM32_ ops) TimerLib) <= 1)%nat /\
  (attachInterrupt_count
     (events_of (run _VARIANT_ARDUINO_STM32_ ops) TimerLib) = 1%nat <->
   _toInit (state_after (run _VARIANT_ARDUINO_STM32_ ops) TimerLib) = false).
Proof.
  unfold run. rewrite seq_events, seq_state, attachInterrupt_count_app.
  pose proof (stm32_ops_attachInterrupt ops
    (state_after (uTimerLib_constructor _VARIANT_ARDUINO_STM32_) TimerLib))
    as H.
  change (latch (_toInit (state_after
            (uTimerLib_constructor _VARIANT_ARDUINO_STM32_) TimerLib)))
    with 1%nat in H.
  change (attachInterrupt_count
            (events_of (uTimerLib_constructor _VARIANT_ARDUINO_STM32_)
               TimerLib)) with 0%nat.
  destruct (_toInit (state_after (do_ops _VARIANT_ARDUINO_STM32_ ops)
              (state_after (uTimerLib_constructor _VARIANT_ARDUINO_STM32_)
                 TimerLib))); cbn [latch] in H; cbn [Nat.add].
  - split; [lia |]. split; [lia | discriminate].
  - split; [lia |]. split; [reflexivity | lia].
Qed.

(** X7: on STM32 the expiry handler neither counts nor clears.  After any
    setter, with any duration, every expiry invokes the callback and leaves
    the object as it is; a timeout is thus never turned Off by its
    expiry, and its callback runs again on every later expiry. *)
Theorem X7_stm32_every_expiry_calls
        (op : Op) (cb : Callback) (t : uTimerLib) (n : nat) :
  callback_of op = Some cb ->
  _type (state_after (do_op _VARIANT_ARDUINO_STM32_ op) t)
    <> UTIMERLIB_TYPE_OFF /\
  state_after (expiries _VARIANT_ARDUINO_STM32_ n)
    (state_after (do_op _VARIANT_ARDUINO_STM32_ op) t)
  = state_after (do_op _VARIANT_ARDUINO_STM32_ op) t /\
  calls (events_of (expiries _VARIANT_ARDUINO_STM32_ n)
           (state_after (do_op _VARIANT_ARDUINO_STM32_ op) t))
  = repeat (call (Some cb)
              (_type (state_after (do_op _VARIANT_ARDUINO_STM32_ op) t))) n.
Proof.
  intros Hop.
  pose proof (setter_stores_callback _VARIANT_ARDUINO_STM32_ op cb t Hop)
    as Hcb.
  assert (Hty : _type (state_after (do_op _VARIANT_ARDUINO_STM32_ op) t)
                <> UTIMERLIB_TYPE_OFF).
  { rewrite do_op_state.
    destruct op; cbn in Hop; try discriminate.
    - destruct (attach_us_frame _VARIANT_ARDUINO_STM32_ us
        (mkTimer (_overflows t) (__overflows t) (_remaining t) (__remaining t)
                 (Some cb0) UTIMERLIB_TYPE_TIMEOUT (_toInit t))) as [_ ->].
      discriminate.
    - destruct (attach_s_frame _VARIANT_ARDUINO_STM32_ s
        (mkTimer (_overflows t) (__overflows t) (_remaining t) (__remaining t)
                 (Some cb0) UTIMERLIB_TYPE_TIMEOUT (_toInit t))) as [_ ->].
      discriminate.
    - destruct (attach_us_frame _VARIANT_ARDUINO_STM32_ us
        (mkTimer (_overflows t) (__overflows t) (_remaining t) (__remaining t)
                 (Some cb0) UTIMERLIB_TYPE_INTERVAL (_toInit t))) as [_ ->].
      discriminate.
    - destruct (attach_s_frame _VARIANT_ARDUINO_STM32_ s
        (mkTimer (_overflows t) (__overflows t) (_remaining t) (__remaining t)
                 (Some cb0) UTIMERLIB_TYPE_INTERVAL (_toInit t))) as [_ ->].
      discriminate. }
  split; [exact Hty |]. split; [apply stm32_expiries_state |].
  generalize dependent (state_after (do_op _VARIANT_ARDUINO_STM32_ op) t).
  intros t1 Hcb Hty. induction n as [| n IH]; [reflexivity |].
  cbn [expiries repeat]. rewrite seq_events, calls_app.
  unfold events_of at 1, state_after.
  rewrite (expiry_stm32 t1 Hty). cbn [fst snd]. rewrite Hcb.
  cbn. f_equal. exact IH.
Qed.

Lemma X7_stm32_every_expiry_calls_witness :
  callback_of (SetTimeout_us 5%nat 1000) = Some 5%nat /\
  _type (state_after (do_op _VARIANT_ARDUINO_STM32_ (SetTimeout_us 5%nat 1000))
           TimerLib)
    <> UTIMERLIB_TYPE_OFF /\
  state_after (expiries _VARIANT_ARDUINO_STM32_ 3)
    (state_after (do_op _VARIANT_ARDUINO_STM32_ (SetTimeout_us 5%nat 1000))
       TimerLib)
  = state_after (do_op _VARIANT_ARDUINO_STM32_ (SetTimeout_us 5%nat 1000))
      TimerLib /\
  calls (events_of (expiries _VARIANT_ARDUINO_STM32_ 3)
           (state_after
              (do_op _VARIANT_ARDUINO_STM32_ (SetTimeout_us 5%nat 1000))
              TimerLib))
  = repeat (call (Some 5%nat)
              (_type (state_after
                        (do_op _VARIANT_ARDUINO_STM32_
                           (SetTimeout_us 5%nat 1000)) TimerLib))) 3.
Proof.
  assert (H : callback_of (SetTimeout_us 5%nat 1000) = Some 5%nat)
    by reflexivity.
  split; [exact H |].
  exact (X7_stm32_every_expiry_calls
           (SetTimeout_us 5%nat 1000) 5%nat TimerLib 3 H).
Defined.

(** ** Timeouts on the targets that count overflows *)

Section CountingTimeouts.

Variable a : Arch.
Hypothesis Ha : counts_overflows a = true.

(** From armed counters in a mode other than Off, the expiries before the
    last one of the period invoke no callback and leave at most one
    overflow to count and no remainder pending. *)
Lemma armed_run_up (t : uTimerLib) :
  _type t <> UTIMERLIB_TYPE_OFF ->
  _overflows t = (if __overflows t =? 0 then 0 else __overflows t) ->
  _remaining t = (if __overflows t =? 0 then 0 else __remaining t) ->
  0 <= __overflows t ->
  0 <= __remaining t ->
  exists o' es,
    expiries a
      (Nat.pred (expiries_per_period (__overflows t) (__remaining t))) t
    = (mkTimer o' (__overflows t) 0 (__remaining t)
               (_cb t) (_type t) (_toInit t), es) /\
    0 <= o' <= 1 /\
    calls es = [].
Proof.
  intros Hon Hov Hrem HO HR. unfold expiries_per_period.
  destruct t as [o O r R f ty ti]. cbn in Hon, Hov, Hrem, HO, HR |- *.
  destruct (O =? 0) eqn:EO; rewrite ?EO in Hov, Hrem.
  - subst o r. exists 0, []. cbn. repeat split; lia.
  - apply Z.eqb_neq in EO. subst o r.
    pose proof (expiries_count_down a Ha (Z.to_nat (O - 1))
                  (mkTimer O O R R f ty ti) Hon) as Hdown.
    cbn [_overflows __overflows _remaining __remaining _cb _type _toInit]
      in Hdown.
    replace (O - Z.of_nat (Z.to_nat (O - 1))) with 1 in Hdown by lia.
    specialize (Hdown ltac:(lia)).
    destruct (0 <? R) eqn:ER; [apply Z.ltb_lt in ER | apply Z.ltb_ge in ER].
    + cbn [Nat.pred].
      replace (Z.to_nat O) with (Z.to_nat (O - 1) + 1)%nat by lia.
      pose proof (expiry_loads_remainder a Ha
                    (mkTimer 1 O R R f ty ti) Hon) as Hload.
      cbn [_overflows __overflows _remaining __remaining _cb _type _toInit]
        in Hload.
      specialize (Hload ltac:(lia) ER).
      rewrite expiries_app. unfold seq.
      rewrite Hdown. cbn [fst snd expiries]. unfold seq, skip.
      rewrite Hload. cbn [fst snd].
      eexists 0, _. split; [reflexivity |]. split; [lia |].
      destruct a; try discriminate; reflexivity.
    + assert (R = 0) by lia. subst R.
      replace (Nat.pred (Z.to_nat O)) with (Z.to_nat (O - 1)) by lia.
      rewrite Hdown. exists 1, []. repeat split; lia.
Qed.

(** An armed timeout invokes its callback on the last expiry of its period,
    once, with the timer already cleared, and stays Off and silent through
    any number of further expiries. *)
Lemma armed_timeout_one_shot (t : uTimerLib) (k : nat) :
  armed_timeout t ->
  0 <= __overflows t ->
  0 <= __remaining t ->
  calls (events_of (expiries a
     (Nat.pred (expiries_per_period (__overflows t) (__remaining t)))) t)
  = [] /\
  calls (events_of (expiries a
     (expiries_per_period (__overflows t) (__remaining t) + k)) t)
  = [call (_cb t) UTIMERLIB_TYPE_OFF] /\
  state_after (expiries a
     (expiries_per_period (__overflows t) (__remaining t) + k)) t
  = mkTimer 0 (__overflows t) 0 (__remaining t)
            (_cb t) UTIMERLIB_TYPE_OFF (_toInit t).
Proof.
  intros (Hty & Hov & Hrem) HO HR.
  assert (Hon : _type t <> UTIMERLIB_TYPE_OFF) by (rewrite Hty; discriminate).
  destruct (armed_run_up t Hon Hov Hrem HO HR) as (o' & es & Hup & Ho' & Hes).
  assert (HP : (expiries_per_period (__overflows t) (__remaining t) + k
                = Nat.pred (expiries_per_period (__overflows t)
                              (__remaining t)) + (1 + k))%nat).
  { unfold expiries_per_period.
    destruct (__overflows t =? 0) eqn:E; [reflexivity |].
    apply Z.eqb_neq in E. destruct (0 <? __remaining t); lia. }
  rewrite HP. unfold events_of, state_after.
  rewrite (expiries_app a _ (1 + k)). unfold seq.
  rewrite Hup. cbn [fst snd Nat.add expiries]. unfold seq.
  rewrite (expiry_completes_timeout a Ha) by (cbn; assumption || lia).
  cbn [fst snd _overflows __overflows _remaining __remaining _cb _type
       _toInit].
  rewrite expiries_off by reflexivity. cbn [fst snd].
  rewrite app_nil_r, !calls_app, Hes, clearTimer_calls.
  repeat split; reflexivity.
Qed.

End CountingTimeouts.

Lemma setTimeout_us_armed (a : Arch) (cb : Callback) (us : Z) (t : uTimerLib) :
  us <> 0 -> armed_timeout (state_after (setTimeout_us a cb us) t).
Proof.
  intros Hus.
  change (setTimeout_us a cb us) with (do_op a (SetTimeout_us cb us)).
  rewrite do_op_state, attach_us_state by exact Hus.
  unfold armed_timeout.
  destruct a; cbn; repeat split.
  all: destruct (plan_overflows (avr_plan_us us) =? 0) eqn:E;
       [ apply Z.eqb_eq in E; assumption || reflexivity | reflexivity ].
Qed.

(** X5: on AVR and ESP a timeout in microseconds is one-shot, for every
    32-bit duration and from any prior state.  The expiries before the last
    one of its period invoke nothing; the last one invokes the callback,
    once and with the mode already Off; and however many expiries follow,
    the callback is not invoked again and the mode stays Off. *)
Theorem X5_timeout_fires_once
        (a : Arch) (cb : Callback) (us : Z) (t0 : uTimerLib) (k : nat) :
  counts_overflows a = true ->
  0 < us < 2 ^ 32 ->
  let t := state_after (setTimeout_us a cb us) t0 in
  let period := expiries_per_period (__overflows t) (__remaining t) in
  calls (events_of (expiries a (Nat.pred period)) t) = [] /\
  calls (events_of (expiries a (period + k)) t)
    = [call (Some cb) UTIMERLIB_TYPE_OFF] /\
  _type (state_after (expiries a (period + k)) t) = UTIMERLIB_TYPE_OFF.
Proof.
  intros Ha Hus t period.
  assert (Harmed : armed_timeout t) by (apply setTimeout_us_armed; lia).
  assert (Hfields : _cb t = Some cb /\ 0 <= __overflows t /\ 0 <= __remaining t).
  { subst t. change (setTimeout_us a cb us)
      with (do_op a (SetTimeout_us cb us)).
    rewrite do_op_state, attach_us_state by lia.
    pose proof (avr_plan_us_bounds us Hus).
    destruct a; cbn; repeat split; lia. }
  destruct Hfields as (Hcb & HO & HR).
  destruct (armed_timeout_one_shot a Ha t k Harmed HO HR) as (H1 & H2 & H3).
  fold period in H1, H2, H3. rewrite Hcb in H2.
  split; [exact H1 |]. split; [exact H2 |]. rewrite H3. reflexivity.
Qed.

Lemma X5_timeout_fires_once_witness :
  counts_overflows ARDUINO_ARCH_AVR = true /\
  0 < 50000 < 2 ^ 32 /\
  let t := state_after (setTimeout_us ARDUINO_ARCH_AVR 9%nat 50000) TimerLib in
  let period := expiries_per_period (__overflows t) (__remaining t) in
  calls (events_of (expiries ARDUINO_ARCH_AVR (Nat.pred period)) t) = [] /\
  calls (events_of (expiries ARDUINO_ARCH_AVR (period + 5)) t)
    = [call (Some 9%nat) UTIMERLIB_TYPE_OFF] /\
  _type (state_after (expiries ARDUINO_ARCH_AVR (period + 5)) t)
    = UTIMERLIB_TYPE_OFF.
Proof.
  assert (H1 : counts_overflows ARDUINO_ARCH_AVR = true) by reflexivity.
  assert (H2 : 0 < 50000 < 2 ^ 32) by lia.
  split; [exact H1 |]. split; [exact H2 |].
  exact (X5_timeout_fires_once ARDUINO_ARCH_AVR 9%nat 50000 TimerLib 5 H1 H2).
Defined.

(** X6: on AVR and ESP an interval in microseconds invokes its callback
    once per period, on the last expiry of the period, for every 32-bit
    duration and from any prior state: after [n] whole periods and [j] more
    expiries, fewer than a period, the callback has been invoked exactly
    [n] times, always in mode Interval. *)
Theorem X6_interval_fires_once_per_period
        (a : Arch) (cb : Callback) (us : Z) (t0 : uTimerLib) (n j : nat) :
  counts_overflows a = true ->
  0 < us < 2 ^ 32 ->
  let t := state_after (setInterval_us a cb us) t0 in
  let period := expiries_per_period (__overflows t) (__remaining t) in
  (j < period)%nat ->
  calls (events_of (expiries a (n * period + j)) t)
  = repeat (call (Some cb) UTIMERLIB_TYPE_INTERVAL) n.
Proof. apply setInterval_us_once_per_period. Qed.

Lemma X6_interval_fires_once_per_period_witness :
  counts_overflows ARDUINO_ARCH_AVR = true /\
  0 < 50000 < 2 ^ 32 /\
  let t := state_after (setInterval_us ARDUINO_ARCH_AVR 9%nat 50000) TimerLib in
  let period := expiries_per_period (__overflows t) (__remaining t) in
  (2 < period)%nat /\
  calls (events_of (expiries ARDUINO_ARCH_AVR (3 * period + 2)) t)
  = repeat (call (Some 9%nat) UTIMERLIB_TYPE_INTERVAL) 3.
Proof.
  assert (H1 : counts_overflows ARDUINO_ARCH_AVR = true) by reflexivity.
  assert (H2 : 0 < 50000 < 2 ^ 32) by lia.
  assert (H3 : (2 < expiries_per_period
                  (__overflows (state_after
                     (setInterval_us ARDUINO_ARCH_AVR 9%nat 50000) TimerLib))
                  (__remaining (state_after
                     (setInterval_us ARDUINO_ARCH_AVR 9%nat 50000) TimerLib)))%nat)
    by (vm_compute; lia).
  split; [exact H1 |]. split; [exact H2 |]. cbv zeta. split; [exact H3 |].
  exact (X6_interval_fires_once_per_period
           ARDUINO_ARCH_AVR 9%nat 50000 TimerLib 3 2 H1 H2 H3).
Defined.

(** ** Durations in seconds *)

Lemma avr_setTimeout_s_state (cb : Callback) (s : Z) (t0 : uTimerLib) :
  reachable ARDUINO_ARCH_AVR t0 ->
  0 < s <= 4294 ->
  state_after (setTimeout_s ARDUINO_ARCH_AVR cb s) t0 =
    mkTimer (s * 1000000 / 16384) (s * 1000000 / 16384)
            (avr_remaining_s s) (avr_remaining_s s)
            (Some cb) UTIMERLIB_TYPE_TIMEOUT (_toInit t0) /\
  61 <= s * 1000000 / 16384.
Proof.
  intros Hreach Hs.
  pose proof (avr_reachable_bounded t0 Hreach) as [Hb _].
  split; [| apply Z.div_le_lower_bound; lia].
  change (setTimeout_s ARDUINO_ARCH_AVR cb s)
    with (do_op ARDUINO_ARCH_AVR (SetTimeout_s cb s)).
  rewrite do_op_state, attach_s_state by lia. cbn.
  rewrite avr_overflows_s_low by lia. rewrite ulong_small by lia.
  reflexivity.
Qed.

(** X12: on AVR, from any reachable state and for 1 to 4294 seconds, a
    period takes at least 61 expiries; an interval invokes its callback once
    per period, on its last expiry, and a timeout invokes it once, on the
    last expiry of its period, and then stays Off and silent. *)
Theorem X12_avr_seconds_timers
        (cb : Callback) (s : Z) (t0 : uTimerLib) (n j k : nat) :
  reachable ARDUINO_ARCH_AVR t0 ->
  0 < s <= 4294 ->
  let ti := state_after (setInterval_s ARDUINO_ARCH_AVR cb s) t0 in
  let to := state_after (setTimeout_s ARDUINO_ARCH_AVR cb s) t0 in
  let period := expiries_per_period (__overflows ti) (__remaining ti) in
  (j < period)%nat ->
  (61 <= period)%nat /\
  expiries_per_period (__overflows to) (__remaining to) = period /\
  calls (events_of (expiries ARDUINO_ARCH_AVR (n * period + j)) ti)
    = repeat (call (Some cb) UTIMERLIB_TYPE_INTERVAL) n /\
  calls (events_of (expiries ARDUINO_ARCH_AVR (Nat.pred period)) to) = [] /\
  calls (events_of (expiries ARDUINO_ARCH_AVR (period + k)) to)
    = [call (Some cb) UTIMERLIB_TYPE_OFF] /\
  _type (state_after (expiries ARDUINO_ARCH_AVR (period + k)) to)
    = UTIMERLIB_TYPE_OFF.
Proof.
  intros Hreach Hs ti to period Hj.
  destruct (avr_setInterval_s_state cb s t0 Hreach Hs) as [Hti H61].
  destruct (avr_setTimeout_s_state cb s t0 Hreach Hs) as [Hto _].
  fold ti in Hti. fold to in Hto.
  pose proof (avr_remaining_s_bounds s ltac:(lia)) as Hrem.
  assert (Hperiod : period = expiries_per_period (s * 1000000 / 16384)
                                                 (avr_remaining_s s))
    by (subst period; rewrite Hti; reflexivity).
  assert (HP : expiries_per_period (__overflows to) (__remaining to) = period)
    by (rewrite Hperiod, Hto; reflexivity).
  split.
  { rewrite Hperiod. unfold expiries_per_period.
    destruct (s * 1000000 / 16384 =? 0) eqn:E; [apply Z.eqb_eq in E; lia |].
    destruct (0 <? avr_remaining_s s); lia. }
  split; [exact HP |]. split.
  { apply avr_setInterval_s_once_per_period; assumption. }
  assert (Harmed : armed_timeout to).
  { rewrite Hto. unfold armed_timeout. cbn.
    destruct (s * 1000000 / 16384 =? 0) eqn:E;
      [apply Z.eqb_eq in E; lia | repeat split]. }
  assert (HO : 0 <= __overflows to) by (rewrite Hto; cbn; lia).
  assert (HR : 0 <= __remaining to) by (rewrite Hto; cbn; lia).
  destruct (armed_timeout_one_shot ARDUINO_ARCH_AVR eq_refl to k
              Harmed HO HR) as (H1 & H2 & H3).
  rewrite HP in H1, H2, H3.
  replace (_cb to) with (Some cb) in H2 by (rewrite Hto; reflexivity).
  split; [exact H1 |]. split; [exact H2 |]. rewrite H3. reflexivity.
Qed.

Lemma X12_avr_seconds_timers_witness :
  reachable ARDUINO_ARCH_AVR TimerLib /\
  0 < 1 <= 4294 /\
  let ti := state_after (setInterval_s ARDUINO_ARCH_AVR 9%nat 1) TimerLib in
  let to := state_after (setTimeout_s ARDUINO_ARCH_AVR 9%nat 1) TimerLib in
  let period := expiries_per_period (__overflows ti) (__remaining ti) in
  (7 < period)%nat /\
  (61 <= period)%nat /\
  expiries_per_period (__overflows to) (__remaining to) = period /\
  calls (events_of (expiries ARDUINO_ARCH_AVR (2 * period + 7)) ti)
    = repeat (call (Some 9%nat) UTIMERLIB_TYPE_INTERVAL) 2 /\
  calls (events_of (expiries ARDUINO_ARCH_AVR (Nat.pred period)) to) = [] /\
  calls (events_of (expiries ARDUINO_ARCH_AVR (period + 3)) to)
    = [call (Some 9%nat) UTIMERLIB_TYPE_OFF] /\
  _type (state_after (expiries ARDUINO_ARCH_AVR (period + 3)) to)
    = UTIMERLIB_TYPE_OFF.
Proof.
  assert (H1 : reachable ARDUINO_ARCH_AVR TimerLib) by apply reachable_init.
  assert (H2 : 0 < 1 <= 4294) by lia.
  assert (H3 : (7 < expiries_per_period
                  (__overflows (state_after
                     (setInterval_s ARDUINO_ARCH_AVR 9%nat 1) TimerLib))
                  (__remaining (state_after
                     (setInterval_s ARDUINO_ARCH_AVR 9%nat 1) TimerLib)))%nat)
    by (vm_compute; lia).
  split; [exact H1 |]. split; [exact H2 |]. cbv zeta. split; [exact H3 |].
  exact (X12_avr_seconds_timers 9%nat 1 TimerLib 2 7 3 H1 H2 H3).
Defined.

Lemma esp_interval_every_tick (cb : Callback) (ti : bool) (n : nat) :
  calls (events_of (expiries ARDUINO_ARCH_ESP n)
           (mkTimer 0 0 0 0 (Some cb) UTIMERLIB_TYPE_INTERVAL ti))
  = repeat (call (Some cb) UTIMERLIB_TYPE_INTERVAL) n.
Proof.
  pose proof (interval_once_per_period ARDUINO_ARCH_ESP eq_refl
    (mkTimer 0 0 0 0 (Some cb) UTIMERLIB_TYPE_INTERVAL ti) n 0) as H.
  cbn [_overflows __overflows _remaining __remaining _cb] in H.
  change (expiries_per_period 0 0) with 1%nat in H.
  rewrite Nat.mul_1_r, Nat.add_0_r in H.
  apply H; try lia. repeat split.
Qed.

Lemma esp_timeout_first_tick (cb : Callback) (ti : bool) (n : nat) :
  events_of (expiries ARDUINO_ARCH_ESP (S n))
    (mkTimer 0 0 0 0 (Some cb) UTIMERLIB_TYPE_TIMEOUT ti)
  = [ticker_detach; call (Some cb) UTIMERLIB_TYPE_OFF].
Proof.
  cbn [expiries]. rewrite seq_events.
  unfold events_of at 1, state_after.
  rewrite (expiry_completes_timeout ARDUINO_ARCH_ESP eq_refl)
    by (cbn; reflexivity || lia).
  cbn [fst snd]. unfold events_of at 2.
  rewrite expiries_off by reflexivity. reflexivity.
Qed.

(** X13: on ESP8266 / ESP32 a setter in seconds with [s > 0] attaches the
    ticker for exactly [s] seconds, and every setter with a duration above
    0 zeroes the plan, so that every tick of the ticker is a completion: an
    interval invokes its callback on every expiry, and a timeout on the
    first one only, after detaching the ticker; later expiries do
    nothing. *)
Theorem X13_esp_every_tick_completes
        (cb : Callback) (d : Z) (t0 : uTimerLib) (n : nat) :
  0 < d ->
  events_of (setTimeout_s ARDUINO_ARCH_ESP cb d) t0
    = [ticker_detach; ticker_attach d] /\
  events_of (setInterval_s ARDUINO_ARCH_ESP cb d) t0
    = [ticker_detach; ticker_attach d] /\
  calls (events_of (expiries ARDUINO_ARCH_ESP n)
           (state_after (setInterval_us ARDUINO_ARCH_ESP cb d) t0))
    = repeat (call (Some cb) UTIMERLIB_TYPE_INTERVAL) n /\
  calls (events_of (expiries ARDUINO_ARCH_ESP n)
           (state_after (setInterval_s ARDUINO_ARCH_ESP cb d) t0))
    = repeat (call (Some cb) UTIMERLIB_TYPE_INTERVAL) n /\
  events_of (expiries ARDUINO_ARCH_ESP (S n))
    (state_after (setTimeout_us ARDUINO_ARCH_ESP cb d) t0)
    = [ticker_detach; call (Some cb) UTIMERLIB_TYPE_OFF] /\
  events_of (expiries ARDUINO_ARCH_ESP (S n))
    (state_after (setTimeout_s ARDUINO_ARCH_ESP cb d) t0)
    = [ticker_detach; call (Some cb) UTIMERLIB_TYPE_OFF].
Proof.
  intros Hd.
  change (state_after (setInterval_us ARDUINO_ARCH_ESP cb d) t0)
    with (state_after (do_op ARDUINO_ARCH_ESP (SetInterval_us cb d)) t0).
  change (state_after (setInterval_s ARDUINO_ARCH_ESP cb d) t0)
    with (state_after (do_op ARDUINO_ARCH_ESP (SetInterval_s cb d)) t0).
  change (state_after (setTimeout_us ARDUINO_ARCH_ESP cb d) t0)
    with (state_after (do_op ARDUINO_ARCH_ESP (SetTimeout_us cb d)) t0).
  change (state_after (setTimeout_s ARDUINO_ARCH_ESP cb d) t0)
    with (state_after (do_op ARDUINO_ARCH_ESP (SetTimeout_s cb d)) t0).
  rewrite !do_op_state, !attach_us_state, !attach_s_state by lia.
  cbn [_cb _type _toInit].
  split; [| split; [| split; [| split; [| split]]]].
  - unfold events_of, setTimeout_s, _attachInterrupt_s.
    destruct (d =? 0) eqn:E; [apply Z.eqb_eq in E; lia | reflexivity].
  - unfold events_of, setInterval_s, _attachInterrupt_s.
    destruct (d =? 0) eqn:E; [apply Z.eqb_eq in E; lia | reflexivity].
  - apply esp_interval_every_tick.
  - apply esp_interval_every_tick.
  - apply esp_timeout_first_tick.
  - apply esp_timeout_first_tick.
Qed.

Lemma X13_esp_every_tick_completes_witness :
  0 < 30 /\
  events_of (setTimeout_s ARDUINO_ARCH_ESP 4%nat 30) TimerLib
    = [ticker_detach; ticker_attach 30] /\
  events_of (setInterval_s ARDUINO_ARCH_ESP 4%nat 30) TimerLib
    = [ticker_detach; ticker_attach 30] /\
  calls (events_of (expiries ARDUINO_ARCH_ESP 3)
           (state_after (setInterval_us ARDUINO_ARCH_ESP 4%nat 30) TimerLib))
    = repeat (call (Some 4%nat) UTIMERLIB_TYPE_INTERVAL) 3 /\
  calls (events_of (expiries ARDUINO_ARCH_ESP 3)
           (state_after (setInterval_s ARDUINO_ARCH_ESP 4%nat 30) TimerLib))
    = repeat (call (Some 4%nat) UTIMERLIB_TYPE_INTERVAL) 3 /\
  events_of (expiries ARDUINO_ARCH_ESP (S 3))
    (state_after (setTimeout_us ARDUINO_ARCH_ESP 4%nat 30) TimerLib)
    = [ticker_detach; call (Some 4%nat) UTIMERLIB_TYPE_OFF] /\
  events_of (expiries ARDUINO_ARCH_ESP (S 3))
    (state_after (setTimeout_s ARDUINO_ARCH_ESP 4%nat 30) TimerLib)
    = [ticker_detach; call (Some 4%nat) UTIMERLIB_TYPE_OFF].
Proof.
  assert (H : 0 < 30) by lia.
  split; [exact H |].
  exact (X13_esp_every_tick_completes 4%nat 30 TimerLib 3 H).
Defined.

(** ** What no number of expiries changes *)

Lemma expiries_frame (a : Arch) (n : nat) (t : uTimerLib) :
  _cb (state_after (expiries a n) t) = _cb t /\
  _toInit (state_after (expiries a n) t) = _toInit t /\
  __overflows (state_after (expiries a n) t) = __overflows t /\
  __remaining (state_after (expiries a n) t) = __remaining t /\
  (_type (state_after (expiries a n) t) = _type t \/
   _type (state_after (expiries a n) t) = UTIMERLIB_TYPE_OFF).
Proof.
  revert t. induction n as [| n IH]; intros t.
  - repeat split; auto.
  - rewrite expiries_S.
    destruct (expiry_frame a t) as (Hcb & Hti & HO & HR & Hty & _).
    destruct (IH (state_after (expiry a) t)) as (H1 & H2 & H3 & H4 & H5).
    repeat split; try congruence.
    destruct H5 as [H5 | H5], Hty as [Hty | Hty];
      first [ left; congruence | right; congruence ].
Qed.

(** X14: expiry events, however many and on whatever target and state, never
    change the stored callback, the saved plan or the STM32 flag.  They
    leave the mode as it is or turn it Off, and only a timeout can be turned
    Off: an interval is never ended and no timer is ever started by an
    expiry.  In mode Off they change nothing at all and emit nothing. *)
Theorem X14_expiries_frame (a : Arch) (n : nat) (t : uTimerLib) :
  _cb (state_after (expiries a n) t) = _cb t /\
  _toInit (state_after (expiries a n) t) = _toInit t /\
  __overflows (state_after (expiries a n) t) = __overflows t /\
  __remaining (state_after (expiries a n) t) = __remaining t /\
  (_type (state_after (expiries a n) t) = _type t \/
   _type t = UTIMERLIB_TYPE_TIMEOUT /\
   _type (state_after (expiries a n) t) = UTIMERLIB_TYPE_OFF) /\
  (_type t <> UTIMERLIB_TYPE_OFF \/ expiries a n t = (t, [])).
Proof.
  destruct (expiries_frame a n t) as (H1 & H2 & H3 & H4 & H5).
  repeat split; try assumption.
  - destruct (_type t) eqn:Hty.
    + left. unfold state_after. now rewrite expiries_off.
    + destruct H5 as [H5 | H5]; auto.
    + left. apply expiries_interval_frame. exact Hty.
  - destruct (_type t) eqn:Hty.
    + right. apply expiries_off. exact Hty.
    + left. discriminate.
    + left. discriminate.
Qed.

(** ** SAM, SAMD21, SAMD51: the same state machine *)

(** The register writes of these targets leave the object alone and invoke
    nothing; [clearTimer] besides sets the mode to Off. *)
Lemma sam_loadRemaining_silent (a : SamFamily.Target) (t : uTimerLib) :
  fst (SamFamily._loadRemaining a t) = t /\
  SamFamily.invocations (snd (SamFamily._loadRemaining a t)) = [].
Proof. destruct a; split; reflexivity. Qed.

Lemma sam_reload_silent (a : SamFamily.Target) (t : uTimerLib) :
  fst (SamFamily.reload_full_period a t) = t /\
  SamFamily.invocations (snd (SamFamily.reload_full_period a t)) = [].
Proof. destruct a; split; reflexivity. Qed.

Lemma sam_clearTimer_silent (a : SamFamily.Target) (t : uTimerLib) :
  fst (SamFamily.clearTimer a t) =
    mkTimer (_overflows t) (__overflows t) (_remaining t) (__remaining t)
            (_cb t) UTIMERLIB_TYPE_OFF (_toInit t) /\
  SamFamily.invocations (snd (SamFamily.clearTimer a t)) = [].
Proof. destruct a; split; reflexivity. Qed.

Lemma sam_invocations_app (es1 es2 : list SamFamily.Effect) :
  SamFamily.invocations (es1 ++ es2)
  = SamFamily.invocations es1 ++ SamFamily.invocations es2.
Proof.
  induction es1 as [| e es1 IH]; [reflexivity |].
  destruct e; cbn; rewrite ?IH; reflexivity.
Qed.

(** The tests of [_interrupt] compare the counters with 0 and the one
    before the last overflow with 1: the cases are those of the binary
    representation of the counters. *)
Lemma sam_interrupt_as_avr (a : SamFamily.Target) (t : uTimerLib) :
  fst (SamFamily._interrupt a t) = state_after (expiry ARDUINO_ARCH_AVR) t /\
  SamFamily.invocations (snd (SamFamily._interrupt a t))
  = calls (events_of (expiry ARDUINO_ARCH_AVR) t).
Proof.
  destruct t as [o O r R f ty ti].
  destruct a, ty, o as [| [p | p |] | p], r as [| p' | p'], O as [| q | q];
    split; reflexivity.
Qed.

Lemma sam_interrupts_as_avr (a : SamFamily.Target) (n : nat) (t : uTimerLib) :
  fst (SamFamily.interrupts a n t)
  = state_after (expiries ARDUINO_ARCH_AVR n) t /\
  SamFamily.invocations (snd (SamFamily.interrupts a n t))
  = calls (events_of (expiries ARDUINO_ARCH_AVR n) t).
Proof.
  revert t. induction n as [| n IH]; intros t; [split; reflexivity |].
  cbn [SamFamily.interrupts expiries]. unfold SamFamily.andthen.
  cbn [fst snd].
  destruct (sam_interrupt_as_avr a t) as [Hs Hc].
  rewrite seq_state, seq_events, calls_app, sam_invocations_app.
  rewrite Hs, Hc.
  destruct (IH (state_after (expiry ARDUINO_ARCH_AVR) t)) as [Hs' Hc'].
  rewrite Hs', Hc'. split; reflexivity.
Qed.

(** X15: on SAM, SAMD21 and SAMD51 [_interrupt] is the same state machine as
    on AVR: from every state, it leaves the same object and makes the same
    callback invocation, if any, with the same mode seen by the callback.
    The blocks of these targets inside [_interrupt] only write timer
    registers. *)
Theorem X15_sam_family_same_state_machine
        (a : SamFamily.Target) (n : nat) (t : uTimerLib) :
  fst (SamFamily._interrupt a t) = state_after (expiry ARDUINO_ARCH_AVR) t /\
  SamFamily.invocations (snd (SamFamily._interrupt a t))
  = calls (events_of (expiry ARDUINO_ARCH_AVR) t) /\
  fst (SamFamily.interrupts a n t)
  = state_after (expiries ARDUINO_ARCH_AVR n) t /\
  SamFamily.invocations (snd (SamFamily.interrupts a n t))
  = calls (events_of (expiries ARDUINO_ARCH_AVR n) t).
Proof.
  destruct (sam_interrupt_as_avr a t) as [H1 H2].
  destruct (sam_interrupts_as_avr a n t) as [H3 H4].
  repeat split; assumption.
Qed.

(** X16: how many steps of the state machine one run of an interrupt
    handler makes.  The SAM handler makes one.  The SAMD21 handler makes
    one for each of the flags OVF and MC0 that is raised, two when both
    are.  The SAMD51 handler makes one when MC0 is raised and none
    otherwise: it never calls [_interrupt] for the overflow flag. *)
Theorem X16_sam_family_handler_steps (OVF MC0 : bool) (t : uTimerLib) :
  (fst (SamFamily.TC3_Handler_SAM t)
   = fst (SamFamily.interrupts SamFamily.ARDUINO_ARCH_SAM 1 t) /\
   SamFamily.invocations (snd (SamFamily.TC3_Handler_SAM t))
   = SamFamily.invocations
       (snd (SamFamily.interrupts SamFamily.ARDUINO_ARCH_SAM 1 t))) /\
  (fst (SamFamily.TC3_Handler_SAMD21 OVF MC0 t)
   = fst (SamFamily.interrupts SamFamily._SAMD21_
            (raised OVF + raised MC0) t) /\
   SamFamily.invocations (snd (SamFamily.TC3_Handler_SAMD21 OVF MC0 t))
   = SamFamily.invocations
       (snd (SamFamily.interrupts SamFamily._SAMD21_
               (raised OVF + raised MC0) t))) /\
  (fst (SamFamily.TC2_Handler OVF MC0 t)
   = fst (SamFamily.interrupts SamFamily.__SAMD51__ (raised MC0) t) /\
   SamFamily.invocations (snd (SamFamily.TC2_Handler OVF MC0 t))
   = SamFamily.invocations
       (snd (SamFamily.interrupts SamFamily.__SAMD51__ (raised MC0) t))).
Proof.
  assert (Hnil : forall es : list SamFamily.Effect, es ++ [] = es)
    by apply app_nil_r.
  split; [| split].
  - unfold SamFamily.TC3_Handler_SAM. cbn [SamFamily.interrupts].
    unfold SamFamily.andthen, SamFamily.write, SamFamily.nop.
    cbn [fst snd app SamFamily.invocations].
    rewrite ?Hnil. split; reflexivity.
  - unfold SamFamily.TC3_Handler_SAMD21.
    destruct OVF, MC0; cbn [raised Nat.add SamFamily.interrupts];
      unfold SamFamily.andthen, SamFamily.write, SamFamily.nop;
      cbn [fst snd app];
      repeat (rewrite ?Hnil, ?sam_invocations_app;
              cbn [SamFamily.invocations app]);
      split; reflexivity.
  - unfold SamFamily.TC2_Handler.
    destruct OVF, MC0; cbn [raised SamFamily.interrupts];
      unfold SamFamily.andthen, SamFamily.write, SamFamily.nop;
      cbn [fst snd app];
      repeat (rewrite ?Hnil, ?sam_invocations_app;
              cbn [SamFamily.invocations app]);
      split; reflexivity.
Qed.

(** X17: on SAM, SAMD21 and SAMD51, from any state in mode Interval whose
    live counters are armed from its saved plan, the callback is invoked
    once per period, on the last expiry of the period: after [n] periods
    and [j] more expiries, fewer than a period, it has been invoked exactly
    [n] times, and after [n] whole periods the object is as it was. *)
Theorem X17_sam_family_interval_once_per_period
        (a : SamFamily.Target) (t : uTimerLib) (n j : nat) :
  armed_interval t ->
  0 <= __overflows t ->
  0 <= __remaining t ->
  (j < expiries_per_period (__overflows t) (__remaining t))%nat ->
  SamFamily.invocations
    (snd (SamFamily.interrupts a
            (n * expiries_per_period (__overflows t) (__remaining t) + j) t))
  = repeat (call (_cb t) UTIMERLIB_TYPE_INTERVAL) n /\
  fst (SamFamily.interrupts a
         (n * expiries_per_period (__overflows t) (__remaining t)) t) = t.
Proof.
  intros Harmed HO HR Hj.
  destruct (sam_interrupts_as_avr a
    (n * expiries_per_period (__overflows t) (__remaining t) + j) t)
    as [_ ->].
  split.
  - now apply interval_once_per_period.
  - destruct (sam_interrupts_as_avr a
      (n * expiries_per_period (__overflows t) (__remaining t)) t) as [-> _].
    destruct (period_once ARDUINO_ARCH_AVR eq_refl t Harmed HO HR)
      as [Hstate _].
    induction n as [| n IH]; [reflexivity |].
    cbn [Nat.mul]. unfold state_after. rewrite expiries_app.
    change (state_after (seq
      (expiries ARDUINO_ARCH_AVR
         (expiries_per_period (__overflows t) (__remaining t)))
      (expiries ARDUINO_ARCH_AVR
         (n * expiries_per_period (__overflows t) (__remaining t)))) t = t).
    rewrite seq_state, Hstate. exact IH.
Qed.

Lemma X17_sam_family_interval_once_per_period_witness :
  let t := mkTimer 3 3 40000 40000 (Some 6%nat) UTIMERLIB_TYPE_INTERVAL true in
  armed_interval t /\
  0 <= __overflows t /\
  0 <= __remaining t /\
  (2 < expiries_per_period (__overflows t) (__remaining t))%nat /\
  SamFamily.invocations
    (snd (SamFamily.interrupts SamFamily._SAMD21_
            (5 * expiries_per_period (__overflows t) (__remaining t) + 2) t))
  = repeat (call (_cb t) UTIMERLIB_TYPE_INTERVAL) 5 /\
  fst (SamFamily.interrupts SamFamily._SAMD21_
         (5 * expiries_per_period (__overflows t) (__remaining t)) t) = t.
Proof.
  intros t.
  assert (H1 : armed_interval t) by (repeat split).
  assert (H2 : 0 <= __overflows t) by (simpl; lia).
  assert (H3 : 0 <= __remaining t) by (simpl; lia).
  assert (H4 : (2 < expiries_per_period (__overflows t) (__remaining t))%nat)
    by (vm_compute; lia).
  split; [exact H1 |]. split; [exact H2 |]. split; [exact H3 |].
  split; [exact H4 |].
  exact (X17_sam_family_interval_once_per_period
           SamFamily._SAMD21_ t 5 2 H1 H2 H3 H4).
Defined.

(** X18: on SAM, SAMD21 and SAMD51, from any state in mode Timeout whose
    live counters are armed from its saved plan, the callback is invoked
    once, on the last expiry of its period and
    with the mode already Off, and stays Off and silent through any number
    of further expiries. *)
Theorem X18_sam_family_timeout_fires_once
        (a : SamFamily.Target) (t : uTimerLib) (k : nat) :
  armed_timeout t ->
  0 <= __overflows t ->
  0 <= __remaining t ->
  SamFamily.invocations
    (snd (SamFamily.interrupts a
            (Nat.pred (expiries_per_period (__overflows t) (__remaining t)))
            t)) = [] /\
  SamFamily.invocations
    (snd (SamFamily.interrupts a
            (expiries_per_period (__overflows t) (__remaining t) + k) t))
  = [call (_cb t) UTIMERLIB_TYPE_OFF] /\
  _type (fst (SamFamily.interrupts a
            (expiries_per_period (__overflows t) (__remaining t) + k) t))
  = UTIMERLIB_TYPE_OFF.
Proof.
  intros Harmed HO HR.
  destruct (armed_timeout_one_shot ARDUINO_ARCH_AVR eq_refl t k Harmed HO HR)
    as (H1 & H2 & H3).
  destruct (sam_interrupts_as_avr a
    (Nat.pred (expiries_per_period (__overflows t) (__remaining t))) t)
    as [_ ->].
  destruct (sam_interrupts_as_avr a
    (expiries_per_period (__overflows t) (__remaining t) + k) t)
    as [-> ->].
  split; [exact H1 |]. split; [exact H2 |]. rewrite H3. reflexivity.
Qed.

Lemma X18_sam_family_timeout_fires_once_witness :
  let t := mkTimer 3 3 40000 40000 (Some 6%nat) UTIMERLIB_TYPE_TIMEOUT true in
  armed_timeout t /\
  0 <= __overflows t /\
  0 <= __remaining t /\
  SamFamily.invocations
    (snd (SamFamily.interrupts SamFamily.ARDUINO_ARCH_SAM
            (Nat.pred (expiries_per_period (__overflows t) (__remaining t)))
            t)) = [] /\
  SamFamily.invocations
    (snd (SamFamily.interrupts SamFamily.ARDUINO_ARCH_SAM
            (expiries_per_period (__overflows t) (__remaining t) + 4) t))
  = [call (_cb t) UTIMERLIB_TYPE_OFF] /\
  _type (fst (SamFamily.interrupts SamFamily.ARDUINO_ARCH_SAM
            (expiries_per_period (__overflows t) (__remaining t) + 4) t))
  = UTIMERLIB_TYPE_OFF.
Proof.
  intros t.
  assert (H1 : armed_timeout t) by (repeat split).
  assert (H2 : 0 <= __overflows t) by (simpl; lia).
  assert (H3 : 0 <= __remaining t) by (simpl; lia).
  split; [exact H1 |]. split; [exact H2 |]. split; [exact H3 |].
  exact (X18_sam_family_timeout_fires_once
           SamFamily.ARDUINO_ARCH_SAM t 4 H1 H2 H3).
Defined.

(** X19: after [setInterval_us] with a duration [us > 0], whenever an expiry
    invokes the callback the object is again exactly what [setInterval_us]
    left: the live overflow count and remainder are those just computed, and
    the saved plan is untouched, after any number of expiries.  This holds
    on the three targets and from every prior state. *)
Theorem X19_setInterval_us_rearms_armed_object
        (a : Arch) (cb : Callback) (us : Z) (t0 : uTimerLib) (n : nat) :
  0 < us ->
  calls (events_of (expiry a)
           (state_after (expiries a n)
              (state_after (setInterval_us a cb us) t0))) <> [] ->
  state_after (expiry a)
    (state_after (expiries a n) (state_after (setInterval_us a cb us) t0))
  = state_after (setInterval_us a cb us) t0.
Proof.
  intros Hus Hcalls.
  apply armed_interval_repeats; [| exact Hcalls].
  apply setInterval_us_armed. lia.
Qed.

Lemma X19_setInterval_us_rearms_armed_object_witness :
  0 < 20000 /\
  calls (events_of (expiry ARDUINO_ARCH_AVR)
           (state_after (expiries ARDUINO_ARCH_AVR 3)
              (state_after (setInterval_us ARDUINO_ARCH_AVR 7%nat 20000)
                 TimerLib))) <> [] /\
  state_after (expiry ARDUINO_ARCH_AVR)
    (state_after (expiries ARDUINO_ARCH_AVR 3)
       (state_after (setInterval_us ARDUINO_ARCH_AVR 7%nat 20000) TimerLib))
  = state_after (setInterval_us ARDUINO_ARCH_AVR 7%nat 20000) TimerLib.
Proof.
  assert (H1 : 0 < 20000) by lia.
  assert (H2 : calls (events_of (expiry ARDUINO_ARCH_AVR)
           (state_after (expiries ARDUINO_ARCH_AVR 3)
              (state_after (setInterval_us ARDUINO_ARCH_AVR 7%nat 20000)
                 TimerLib))) <> []) by (vm_compute; discriminate).
  split; [exact H1 | split; [exact H2 |]].
  exact (X19_setInterval_us_rearms_armed_object
           ARDUINO_ARCH_AVR 7%nat 20000 TimerLib 3 H1 H2).
Defined.
